(** * seller-apis: stock and price synchronisation (seller.py, market.py)

    A shallow embedding of the two modules of the repository:
    [seller.py] (marketplace Ozon) and [market.py] (marketplace Yandex).

    - Python text is a [string] holding its UTF-8 bytes; the functions
      below look at single bytes only to compare them with ASCII
      characters, so a text with other characters is treated as Python
      treats it; [py_int] decodes the characters.
    - A Python exception is a value of [exn]; a call that may raise
      returns a [result].
    - The HTTP calls and the clock are the environment of the program:
      they are parameters of the orchestrators, and every call made is
      recorded in a trace. *)

From Stdlib Require Import String Ascii.
From Stdlib Require Import ZArith NArith Bool Arith Lia Permutation List.
Import ListNotations.

Local Open Scope string_scope.
Local Open Scope list_scope.

(** ** The Python runtime used by the two modules *)

Module Py.

(** The exceptions the program can meet.  [ZeroDivisionError] is the
    arithmetic fault of the interpreter (a subclass of ArithmeticError);
    [ValueError] is raised for an argument of the right type and an
    unacceptable value.  The last four come from the HTTP layer
    ([requests.exceptions]) or from anywhere else. *)
Inductive exn : Type :=
| ValueError (msg : string)
| ZeroDivisionError (msg : string)
| IndexError (msg : string)
| ReadTimeout
| ConnectionError (detail : string)
| HTTPError (status : Z)
| OtherException (detail : string).

Definition is_arithmetic_fault (e : exn) : bool :=
  match e with ZeroDivisionError _ => true | _ => false end.

Definition is_invalid_argument (e : exn) : bool :=
  match e with ValueError _ => true | _ => false end.

Inductive result (A : Type) : Type :=
| Ok (a : A)
| Raise (e : exn).
Arguments Ok {A} a.
Arguments Raise {A} e.

Definition bind {A B : Type} (r : result A) (k : A -> result B) : result B :=
  match r with
  | Ok a => k a
  | Raise e => Raise e
  end.

Declare Scope py_scope.
Delimit Scope py_scope with py.
Notation "x <- c ;; k" := (bind c (fun x => k))
  (at level 100, c at next level, right associativity) : py_scope.

(** [len(lst)] *)
Definition len {A : Type} (lst : list A) : Z := Z.of_nat (length lst).

(** [x in lst], for a list of texts *)
Definition py_in (x : string) (lst : list string) : bool :=
  existsb (String.eqb x) lst.

(** [lst.remove(x)]: the first element equal to [x] is taken out; the call
    raises ValueError when there is none. *)
Fixpoint remove_first (x : string) (lst : list string) : option (list string) :=
  match lst with
  | [] => None
  | y :: rest =>
      if String.eqb x y then Some rest
      else match remove_first x rest with
           | Some rest' => Some (y :: rest')
           | None => None
           end
  end.

Definition list_remove (x : string) (lst : list string) : result (list string) :=
  match remove_first x lst with
  | Some lst' => Ok lst'
  | None => Raise (ValueError "list.remove(x): x not in list")
  end.

(** [range(start, stop, step)], as the list of its elements.  The number
    of elements is computed as the interpreter does. *)
Definition range_length (start stop step : Z) : Z :=
  if (0 <? step)%Z then
    if (start <? stop)%Z then ((stop - start - 1) / step + 1)%Z else 0%Z
  else
    if (stop <? start)%Z then ((start - stop - 1) / (- step) + 1)%Z else 0%Z.

Definition range (start stop step : Z) : result (list Z) :=
  if (step =? 0)%Z then Raise (ValueError "range() arg 3 must not be zero")
  else Ok (map (fun k => (start + Z.of_nat k * step)%Z)
               (seq 0 (Z.to_nat (range_length start stop step)))).

(** [lst[i:j]]: a negative bound counts from the end, and both bounds are
    brought back into [0, len(lst)]. *)
Definition clamp (n : Z) (i : Z) : Z :=
  if (i <? 0)%Z then Z.max (i + n) 0 else Z.min i n.

Definition slice {A : Type} (lst : list A) (i j : Z) : list A :=
  let lo := clamp (len lst) i in
  let hi := clamp (len lst) j in
  firstn (Z.to_nat (hi - lo)) (skipn (Z.to_nat lo) lst).

(** [lst[0]] *)
Definition item0 {A : Type} (lst : list A) : result A :=
  match lst with
  | x :: _ => Ok x
  | [] => Raise (IndexError "list index out of range")
  end.

(** [s.split(sep)] for a separator of one character: the fields between
    the occurrences of [sep], in order. *)
Fixpoint split (sep : ascii) (s : string) : list string :=
  match s with
  | EmptyString => [EmptyString]
  | String c rest =>
      if Ascii.eqb c sep then EmptyString :: split sep rest
      else match split sep rest with
           | field :: fields => String c field :: fields
           | [] => [String c EmptyString]
           end
  end.

(** The character class [0-9] of a regular expression over text: the
    code points from "0" (48) to "9" (57). *)
Definition in_0_9 (c : ascii) : bool :=
  ((48 <=? nat_of_ascii c) && (nat_of_ascii c <=? 57))%nat.

(** [re.sub("[^0-9]", "", s)]: every character outside the class is
    replaced by the empty text. *)
Fixpoint re_sub_not_0_9 (s : string) : string :=
  match s with
  | EmptyString => EmptyString
  | String c rest =>
      if in_0_9 c then String c (re_sub_not_0_9 rest) else re_sub_not_0_9 rest
  end.

(** [int(s)] for a text [s], base 10.  The interpreter first copies the
    text into ASCII, character by character: a character below 127 is
    kept, a blank of another script becomes a space, a decimal digit of
    another script becomes the ASCII digit of its value, and anything
    else becomes a question mark (the interpreter stops the copy there;
    what follows plays no part, since the question mark already makes
    the literal invalid).  Then the blanks around the literal are
    dropped (tab to carriage return, and the space), then comes an
    optional sign, then digits, where one underscore may stand between
    two digits.

    A text is held as its UTF-8 bytes, so the characters are decoded
    first; bytes that are no UTF-8 stand for no text and are refused.
    The tables of the blanks and of the decimal digits are those of
    Unicode 14 (Python 3.11).  Scope of the model: no bound on the number
    of digits (an interpreter setting, 4300 by default in recent
    versions, none in older ones).  The message of the ValueError is
    shortened. *)
Definition is_space (c : ascii) : bool :=
  let n := nat_of_ascii c in
  (((9 <=? n) && (n <=? 13)) || (n =? 32))%nat.

Fixpoint lstrip (cs : list ascii) : list ascii :=
  match cs with
  | c :: rest => if is_space c then lstrip rest else cs
  | [] => []
  end.

Definition strip (cs : list ascii) : list ascii :=
  rev (lstrip (rev (lstrip cs))).

Definition digit_value (c : ascii) : Z := (Z.of_nat (nat_of_ascii c) - 48)%Z.

Fixpoint digits (acc : Z) (after_digit : bool) (cs : list ascii) : option Z :=
  match cs with
  | [] => if after_digit then Some acc else None
  | c :: rest =>
      if in_0_9 c then digits (10 * acc + digit_value c)%Z true rest
      else if Ascii.eqb c "_" then
             if after_digit then digits acc false rest else None
           else None
  end.

Definition int_literal (cs : list ascii) : option Z :=
  match cs with
  | c :: ds =>
      if Ascii.eqb c "-" then option_map Z.opp (digits 0 false ds)
      else if Ascii.eqb c "+" then digits 0 false ds
      else digits 0 false cs
  | [] => None
  end.

(** The characters of a text, as code points, from its UTF-8 bytes: one
    byte below 128, or a first byte and one to three continuation bytes.
    A character has one encoding only, the shortest, and the code points
    from 55296 to 57343 and above 1114111 are no characters. *)
Definition continuation (b : N) : bool := ((128 <=? b) && (b <? 192))%N.

Definition scalar (least cp : N) : option N :=
  if ((least <=? cp) && (cp <=? 1114111) && negb ((55296 <=? cp) && (cp <=? 57343)))%N
  then Some cp
  else None.

Definition then_decode (cp : option N) (rest : option (list N)) : option (list N) :=
  match cp, rest with
  | Some c, Some cs => Some (c :: cs)
  | _, _ => None
  end.

Fixpoint utf8_decode (bytes : list N) : option (list N) :=
  match bytes with
  | [] => Some []
  | b :: rest =>
      if (b <? 128)%N then then_decode (Some b) (utf8_decode rest)
      else if (b <? 192)%N then None
      else if (b <? 224)%N then
        match rest with
        | b1 :: rest' =>
            if continuation b1
            then then_decode (scalar 128 ((b - 192) * 64 + (b1 - 128))%N)
                             (utf8_decode rest')
            else None
        | _ => None
        end
      else if (b <? 240)%N then
        match rest with
        | b1 :: b2 :: rest' =>
            if continuation b1 && continuation b2
            then then_decode
                   (scalar 2048 ((b - 224) * 4096 + (b1 - 128) * 64 + (b2 - 128))%N)
                   (utf8_decode rest')
            else None
        | _ => None
        end
      else if (b <? 248)%N then
        match rest with
        | b1 :: b2 :: b3 :: rest' =>
            if continuation b1 && continuation b2 && continuation b3
            then then_decode
                   (scalar 65536 ((b - 240) * 262144 + (b1 - 128) * 4096
                                  + (b2 - 128) * 64 + (b3 - 128))%N)
                   (utf8_decode rest')
            else None
        | _ => None
        end
      else None
  end.

Definition code_points (s : string) : option (list N) :=
  utf8_decode (map N_of_ascii (list_ascii_of_string s)).

(** The blanks outside ASCII. *)
Definition unicode_spaces : list N :=
  [133; 160; 5760; 8192; 8193; 8194; 8195; 8196; 8197; 8198; 8199; 8200;
   8201; 8202; 8232; 8233; 8239; 8287; 12288]%N.

(** The decimal digits outside ASCII come in runs of ten, from the digit
    of value 0 to the digit of value 9: the code points of the zeros. *)
Definition unicode_zeros : list N :=
  [1632; 1776; 1984; 2406; 2534; 2662; 2790; 2918; 3046; 3174; 3302; 3430;
   3558; 3664; 3792; 3872; 4160; 4240; 6112; 6160; 6470; 6608; 6784; 6800;
   6992; 7088; 7232; 7248; 42528; 43216; 43264; 43472; 43504; 43600; 44016;
   65296; 66720; 68912; 69734; 69872; 69942; 70096; 70384; 70736; 70864;
   71248; 71360; 71472; 71904; 72016; 72784; 73040; 73120; 92768; 92864;
   93008; 120782; 120792; 120802; 120812; 120822; 123200; 123632; 125264;
   130032]%N.

Definition unicode_decimal (cp : N) : option N :=
  match find (fun zero => ((zero <=? cp) && (cp <? zero + 10))%N) unicode_zeros with
  | Some zero => Some (cp - zero)%N
  | None => None
  end.

(** The ASCII character the interpreter reads for a character. *)
Definition to_ascii (cp : N) : ascii :=
  if (cp <? 127)%N then ascii_of_N cp
  else if existsb (N.eqb cp) unicode_spaces then " "%char
  else match unicode_decimal cp with
       | Some d => ascii_of_N (48 + d)
       | None => "?"%char
       end.

Definition py_int (s : string) : result Z :=
  match code_points s with
  | Some cps =>
      match int_literal (strip (map to_ascii cps)) with
      | Some z => Ok z
      | None => Raise (ValueError "invalid literal for int() with base 10")
      end
  | None => Raise (ValueError "invalid literal for int() with base 10")
  end.

(** [datetime.datetime]: the reading of the clock, down to the
    microsecond. *)
Record datetime : Type := mk_datetime {
  year : nat; month : nat; day : nat;
  hour : nat; minute : nat; second : nat;
  microsecond : nat
}.

(** [dt.replace(microsecond=us)] *)
Definition replace_microsecond (dt : datetime) (us : nat) : datetime :=
  {| year := year dt; month := month dt; day := day dt;
     hour := hour dt; minute := minute dt; second := second dt;
     microsecond := us |}.

(** A number on [width] decimal digits, zeros in front. *)
Fixpoint zero_padded (width n : nat) : string :=
  match width with
  | O => EmptyString
  | S w =>
      String.append (zero_padded w (n / 10))
                    (String (ascii_of_nat (48 + n mod 10)) EmptyString)
  end.

(** [dt.isoformat()]: YYYY-MM-DDTHH:MM:SS, and the microseconds after a
    period when they are not zero. *)
Definition isoformat (dt : datetime) : string :=
  String.concat EmptyString
    [ zero_padded 4 (year dt); "-"; zero_padded 2 (month dt); "-";
      zero_padded 2 (day dt); "T"; zero_padded 2 (hour dt); ":";
      zero_padded 2 (minute dt); ":"; zero_padded 2 (second dt);
      if (microsecond dt =? 0)%nat then EmptyString
      else String.append "." (zero_padded 6 (microsecond dt)) ].

(** *** Calls to the outside, with the trace of what was done

    A computation that talks to the outside gives the events it produced,
    in order, and its result or the exception that stopped it. *)
Definition io (E A : Type) : Type := (list E * result A)%type.

Definition io_ret {E A : Type} (a : A) : io E A := ([], Ok a).

Definition io_bind {E A B : Type} (c : io E A) (k : A -> io E B) : io E B :=
  match c with
  | (t, Ok a) => let (t', r) := k a in (t ++ t', r)
  | (t, Raise e) => (t, Raise e)
  end.

(** A call to the outside: the event is recorded, the answer given. *)
Definition call {E A : Type} (ev : E) (answer : result A) : io E A :=
  ([ev], answer).

(** A computation that touches nothing outside. *)
Definition pure {E A : Type} (r : result A) : io E A := ([], r).

(** [for x in xs: body(x)] *)
Fixpoint for_each {E A : Type} (xs : list A) (body : A -> io E unit) : io E unit :=
  match xs with
  | [] => io_ret tt
  | x :: rest => io_bind (body x) (fun _ => for_each rest body)
  end.

(** [try: body  except ...: handler]: the handler runs on the exception
    the body raised, after what the body had already done. *)
Definition try_except {E A : Type} (body : io E A) (handler : exn -> io E A) : io E A :=
  match body with
  | (t, Ok a) => (t, Ok a)
  | (t, Raise e) => let (t', r) := handler e in (t ++ t', r)
  end.

(** A coroutine function called and never awaited: the call builds the
    coroutine object and runs nothing of its body. *)
Definition not_awaited {E A : Type} (coroutine : io E A) : io E unit := io_ret tt.

Notation "x <~ c ;; k" := (io_bind c (fun x => k))
  (at level 100, c at next level, right associativity) : py_scope.
Notation "c ;;; k" := (io_bind c (fun _ => k))
  (at level 100, right associativity) : py_scope.

End Py.

Import Py.

Local Open Scope py_scope.

(** ** The supplier feed

    A row of the spreadsheet, as [download_stock] gives it: a dictionary
    read through its keys "Kod" (the product code), "Kolichestvo" (the
    quantity) and "Tsena" (the price), written in Cyrillic in the source.
    The three values are texts, so [str(watch.get(key))] is the value. *)
Record watch : Type := mk_watch {
  Kod : string;
  Kolichestvo : string;
  Tsena : string
}.

(** What [main] prints in its three [except] clauses: the timeout line,
    the exception followed by the connection line, the exception followed
    by "ERROR_2". *)
Inductive printed : Type :=
| TimeoutLine
| ConnectionLine (error : exn)
| Error2Line (error : exn).

(** ** seller.py (marketplace Ozon) *)

Module Seller.

(** An element of the [stocks] payload: {"offer_id": ..., "stock": ...} *)
Record Stock : Type := mk_Stock {
  offer_id : string;
  stock : Z
}.

(** An element of the [prices] payload. *)
Record Price : Type := mk_Price {
  auto_action_enabled : string;
  currency_code : string;
  price_offer_id : string;
  old_price : string;
  price : string
}.

(** The quantity sent for a row: the three branches on [count]. *)
Definition stock_of (w : watch) : result Z :=
  let count := Kolichestvo w in
  if String.eqb count ">10" then Ok 100%Z
  else if String.eqb count "1" then Ok 0%Z
  else py_int (Kolichestvo w).

(** The first loop of [create_stocks]: [stocks] and the list object
    [offer_ids] of the caller, after the rows read so far. *)
Fixpoint stocks_loop (watch_remnants : list watch) (offer_ids : list string)
    (stocks : list Stock) : result (list Stock * list string) :=
  match watch_remnants with
  | [] => Ok (stocks, offer_ids)
  | w :: rest =>
      if py_in (Kod w) offer_ids then
        stock <- stock_of w ;;
        let stocks := stocks ++ [{| offer_id := Kod w; stock := stock |}] in
        offer_ids <- list_remove (Kod w) offer_ids ;;
        stocks_loop rest offer_ids stocks
      else stocks_loop rest offer_ids stocks
  end.

(** [create_stocks(watch_remnants, offer_ids)].  The list [offer_ids] is
    the caller's object and is changed in place, so the model gives the
    returned list together with the content of [offer_ids] after the
    call. *)
Definition create_stocks (watch_remnants : list watch) (offer_ids : list string)
    : result (list Stock * list string) :=
  st <- stocks_loop watch_remnants offer_ids [] ;;
  let (stocks, offer_ids) := st in
  Ok (stocks ++ map (fun offer_id => {| offer_id := offer_id; stock := 0%Z |}) offer_ids,
      offer_ids).

(** [price_conversion(price)]:
      re.sub("[^0-9]", "", price.split(".")[0]) *)
Definition price_conversion (price : string) : result string :=
  before <- item0 (split "." price) ;;
  Ok (re_sub_not_0_9 before).

(** The loop of [create_prices], in the same shape: [prices] and the
    caller's [offer_ids] after the rows read so far. *)
Fixpoint prices_loop (watch_remnants : list watch) (offer_ids : list string)
    (prices : list Price) : result (list Price * list string) :=
  match watch_remnants with
  | [] => Ok (prices, offer_ids)
  | w :: rest =>
      if py_in (Kod w) offer_ids then
        converted <- price_conversion (Tsena w) ;;
        let price :=
          {| auto_action_enabled := "UNKNOWN";
             currency_code := "RUB";
             price_offer_id := Kod w;
             old_price := "0";
             price := converted |} in
        prices_loop rest offer_ids (prices ++ [price])
      else prices_loop rest offer_ids prices
  end.

Definition create_prices (watch_remnants : list watch) (offer_ids : list string)
    : result (list Price * list string) :=
  prices_loop watch_remnants offer_ids [].

(** [divide(lst, n)]:
      for i in range(0, len(lst), n): yield lst[i: i + n]
    Every caller consumes the generator at once with [list(...)], so the
    model gives the list of the chunks, or the exception met. *)
Definition divide {A : Type} (lst : list A) (n : Z) : result (list (list A)) :=
  idx <- range 0 (len lst) n ;;
  Ok (map (fun i => slice lst i (i + n)%Z) idx).

(** The outside of the program: the marketplace and the supplier's site.
    [get_offer_ids] gives a new list at each call. *)
Record Remote : Type := mk_Remote {
  get_offer_ids : string -> string -> result (list string);
  download_stock : result (list watch);
  update_stocks : list Stock -> string -> string -> result unit;
  update_price : list Price -> string -> string -> result unit
}.

Inductive event : Type :=
| GetOfferIds (client_id seller_token : string)
| DownloadStock
| UpdateStocks (stocks : list Stock) (client_id seller_token : string)
| UpdatePrice (prices : list Price) (client_id seller_token : string)
| Print (line : printed).

Section Orchestration.
Variable remote : Remote.

(** The body of [upload_prices], as it runs when the coroutine is
    awaited. *)
Definition upload_prices (watch_remnants : list watch)
    (client_id seller_token : string) : io event (list Price) :=
  offer_ids <~ call (GetOfferIds client_id seller_token)
                    (get_offer_ids remote client_id seller_token) ;;
  created <~ pure (create_prices watch_remnants offer_ids) ;;
  let (prices, offer_ids) := created in
  batches <~ pure (divide prices 1000) ;;
  for_each batches (fun some_price =>
    call (UpdatePrice some_price client_id seller_token)
         (update_price remote some_price client_id seller_token)) ;;;
  io_ret prices.

(** The body of [upload_stocks]. *)
Definition upload_stocks (watch_remnants : list watch)
    (client_id seller_token : string) : io event (list Stock * list Stock) :=
  offer_ids <~ call (GetOfferIds client_id seller_token)
                    (get_offer_ids remote client_id seller_token) ;;
  created <~ pure (create_stocks watch_remnants offer_ids) ;;
  let (stocks, offer_ids) := created in
  batches <~ pure (divide stocks 100) ;;
  for_each batches (fun some_stock =>
    call (UpdateStocks some_stock client_id seller_token)
         (update_stocks remote some_stock client_id seller_token)) ;;;
  let not_empty := filter (fun s => negb (stock s =? 0)%Z) stocks in
  io_ret (not_empty, stocks).

(** The [try] block of [main].  The one list object [offer_ids] goes to
    [create_stocks] and then to [create_prices].  The result is the value
    of the local variables [stocks] and [prices] at the end of the
    block. *)
Definition main_try (client_id seller_token : string)
    : io event (list Stock * list Price) :=
  offer_ids <~ call (GetOfferIds client_id seller_token)
                    (get_offer_ids remote client_id seller_token) ;;
  watch_remnants <~ call DownloadStock (download_stock remote) ;;
  created <~ pure (create_stocks watch_remnants offer_ids) ;;
  let (stocks, offer_ids) := created in
  batches <~ pure (divide stocks 100) ;;
  for_each batches (fun some_stock =>
    call (UpdateStocks some_stock client_id seller_token)
         (update_stocks remote some_stock client_id seller_token)) ;;;
  created <~ pure (create_prices watch_remnants offer_ids) ;;
  let (prices, offer_ids) := created in
  batches <~ pure (divide prices 900) ;;
  for_each batches (fun some_price =>
    call (UpdatePrice some_price client_id seller_token)
         (update_price remote some_price client_id seller_token)) ;;;
  io_ret (stocks, prices).

(** The three [except] clauses of [main], in their order. *)
Definition report (error : exn) : io event unit :=
  match error with
  | ReadTimeout => call (Print TimeoutLine) (Ok tt)
  | ConnectionError _ => call (Print (ConnectionLine error)) (Ok tt)
  | _ => call (Print (Error2Line error)) (Ok tt)
  end.

(** [main()], the two settings read from the environment given. *)
Definition main (client_id seller_token : string) : io event unit :=
  try_except
    (main_try client_id seller_token ;;; io_ret tt)
    report.

End Orchestration.

End Seller.

(** ** market.py (marketplace Yandex) *)

Module Market.

(** An element of "items": {"count": ..., "type": "FIT", "updatedAt": ...} *)
Record Item : Type := mk_Item {
  count : Z;
  type : string;
  updatedAt : string
}.

(** An element of the [skus] payload. *)
Record Sku : Type := mk_Sku {
  sku : string;
  warehouseId : string;
  items : list Item
}.

(** An element of the [offers] payload:
    {"id": ..., "price": {"value": ..., "currencyId": "RUR"}} *)
Record Offer : Type := mk_Offer {
  id : string;
  price_value : Z;
  price_currencyId : string
}.

Definition stock_of (w : watch) : result Z :=
  let count := Kolichestvo w in
  if String.eqb count ">10" then Ok 100%Z
  else if String.eqb count "1" then Ok 0%Z
  else py_int (Kolichestvo w).

Definition entry (code warehouse_id : string) (stock : Z) (date : string) : Sku :=
  {| sku := code;
     warehouseId := warehouse_id;
     items := [{| count := stock; type := "FIT"; updatedAt := date |}] |}.

Fixpoint stocks_loop (watch_remnants : list watch) (offer_ids : list string)
    (warehouse_id date : string) (stocks : list Sku)
    : result (list Sku * list string) :=
  match watch_remnants with
  | [] => Ok (stocks, offer_ids)
  | w :: rest =>
      if py_in (Kod w) offer_ids then
        stock <- stock_of w ;;
        let stocks := stocks ++ [entry (Kod w) warehouse_id stock date] in
        offer_ids <- list_remove (Kod w) offer_ids ;;
        stocks_loop rest offer_ids warehouse_id date stocks
      else stocks_loop rest offer_ids warehouse_id date stocks
  end.

(** [create_stocks(watch_remnants, offer_ids, warehouse_id)].  The clock
    is read once, at the start: [utcnow] is what it shows then.  As in
    seller.py the caller's [offer_ids] is changed in place. *)
Definition create_stocks (utcnow : datetime) (watch_remnants : list watch)
    (offer_ids : list string) (warehouse_id : string)
    : result (list Sku * list string) :=
  let date := String.append (isoformat (replace_microsecond utcnow 0)) "Z" in
  st <- stocks_loop watch_remnants offer_ids warehouse_id date [] ;;
  let (stocks, offer_ids) := st in
  Ok (stocks ++ map (fun offer_id => entry offer_id warehouse_id 0%Z date) offer_ids,
      offer_ids).

Fixpoint prices_loop (watch_remnants : list watch) (offer_ids : list string)
    (prices : list Offer) : result (list Offer * list string) :=
  match watch_remnants with
  | [] => Ok (prices, offer_ids)
  | w :: rest =>
      if py_in (Kod w) offer_ids then
        converted <- Seller.price_conversion (Tsena w) ;;
        value <- py_int converted ;;
        let price :=
          {| id := Kod w; price_value := value; price_currencyId := "RUR" |} in
        prices_loop rest offer_ids (prices ++ [price])
      else prices_loop rest offer_ids prices
  end.

Definition create_prices (watch_remnants : list watch) (offer_ids : list string)
    : result (list Offer * list string) :=
  prices_loop watch_remnants offer_ids [].

(** The outside: the marketplace, the supplier's site ([download_stock]
    is the function of seller.py) and the clock: [utcnow k] is what the
    clock shows the k-th time the run reads it (k = 0, 1, ...). *)
Record Remote : Type := mk_Remote {
  get_offer_ids : string -> string -> result (list string);
  download_stock : result (list watch);
  update_stocks : list Sku -> string -> string -> result unit;
  update_price : list Offer -> string -> string -> result unit;
  utcnow : nat -> datetime
}.

Inductive event : Type :=
| GetOfferIds (campaign_id market_token : string)
| DownloadStock
| UpdateStocks (stocks : list Sku) (campaign_id market_token : string)
| UpdatePrice (prices : list Offer) (campaign_id market_token : string)
| Print (line : printed).

Section Orchestration.
Variable remote : Remote.

(** The body of [upload_prices], as it runs when the coroutine is
    awaited. *)
Definition upload_prices (watch_remnants : list watch)
    (campaign_id market_token : string) : io event (list Offer) :=
  offer_ids <~ call (GetOfferIds campaign_id market_token)
                    (get_offer_ids remote campaign_id market_token) ;;
  created <~ pure (create_prices watch_remnants offer_ids) ;;
  let (prices, offer_ids) := created in
  batches <~ pure (Seller.divide prices 500) ;;
  for_each batches (fun some_prices =>
    call (UpdatePrice some_prices campaign_id market_token)
         (update_price remote some_prices campaign_id market_token)) ;;;
  io_ret prices.

(** The body of [upload_stocks].  Every entry built by [create_stocks]
    has one item, so [stock.get("items")[0]] is there. *)
Definition upload_stocks (watch_remnants : list watch)
    (campaign_id market_token warehouse_id : string)
    : io event (list Sku * list Sku) :=
  offer_ids <~ call (GetOfferIds campaign_id market_token)
                    (get_offer_ids remote campaign_id market_token) ;;
  created <~ pure (create_stocks (utcnow remote 0) watch_remnants offer_ids warehouse_id) ;;
  let (stocks, offer_ids) := created in
  batches <~ pure (Seller.divide stocks 2000) ;;
  for_each batches (fun some_stock =>
    call (UpdateStocks some_stock campaign_id market_token)
         (update_stocks remote some_stock campaign_id market_token)) ;;;
  let not_empty :=
    filter (fun s => match items s with
                     | item :: _ => negb (count item =? 0)%Z
                     | [] => false
                     end) stocks in
  io_ret (not_empty, stocks).

(** One campaign inside the [try] block of [main]: the listing, the
    stocks pushed in chunks, then [upload_prices(...)] called and not
    awaited.  [reading] counts the readings of the clock made before. *)
Definition campaign (reading : nat) (watch_remnants : list watch)
    (campaign_id market_token warehouse_id : string) : io event (list Sku) :=
  offer_ids <~ call (GetOfferIds campaign_id market_token)
                    (get_offer_ids remote campaign_id market_token) ;;
  created <~ pure (create_stocks (utcnow remote reading) watch_remnants offer_ids warehouse_id) ;;
  let (stocks, offer_ids) := created in
  batches <~ pure (Seller.divide stocks 2000) ;;
  for_each batches (fun some_stock =>
    call (UpdateStocks some_stock campaign_id market_token)
         (update_stocks remote some_stock campaign_id market_token)) ;;;
  not_awaited (upload_prices watch_remnants campaign_id market_token) ;;;
  io_ret stocks.

(** The [try] block of [main]: the campaign FBS, then the campaign DBS. *)
Definition main_try (watch_remnants : list watch)
    (market_token campaign_fbs_id campaign_dbs_id
     warehouse_fbs_id warehouse_dbs_id : string) : io event unit :=
  campaign 0 watch_remnants campaign_fbs_id market_token warehouse_fbs_id ;;;
  campaign 1 watch_remnants campaign_dbs_id market_token warehouse_dbs_id ;;;
  io_ret tt.

Definition report (error : exn) : io event unit :=
  match error with
  | ReadTimeout => call (Print TimeoutLine) (Ok tt)
  | ConnectionError _ => call (Print (ConnectionLine error)) (Ok tt)
  | _ => call (Print (Error2Line error)) (Ok tt)
  end.

(** [main()], the five settings read from the environment given.  The
    feed is downloaded before the [try] block is entered. *)
Definition main (market_token campaign_fbs_id campaign_dbs_id
                 warehouse_fbs_id warehouse_dbs_id : string) : io event unit :=
  watch_remnants <~ call DownloadStock (download_stock remote) ;;
  try_except
    (main_try watch_remnants market_token campaign_fbs_id campaign_dbs_id
              warehouse_fbs_id warehouse_dbs_id)
    report.

End Orchestration.

End Market.

(** ** The mapper and the normalizer in the words of the specification *)

Module Spec.

(** The text before the first period, the whole text when it has none. *)
Definition before_first_period (s : string) : string :=
  match String.index 0 "." s with
  | Some n => String.substring 0 n s
  | None => s
  end.

Definition ascii_digits : list ascii :=
  ["0"; "1"; "2"; "3"; "4"; "5"; "6"; "7"; "8"; "9"]%char.

Definition is_ascii_digit (c : ascii) : bool :=
  existsb (Ascii.eqb c) ascii_digits.

(** The characters of [s] that satisfy [keep], in their order. *)
Fixpoint only (keep : ascii -> bool) (s : string) : string :=
  match s with
  | EmptyString => EmptyString
  | String c rest => if keep c then String c (only keep rest) else only keep rest
  end.

Definition normalize_price (raw : string) : string :=
  only is_ascii_digit (before_first_period raw).

(** The integer a text is the literal of, when it is one. *)
Definition literal (s : string) : option Z :=
  match py_int s with
  | Ok z => Some z
  | Raise _ => None
  end.

(** The bucketed quantity. *)
Definition bucket (quantity : string) : option Z :=
  if String.eqb quantity ">10" then Some 100%Z
  else if String.eqb quantity "1" then Some 0%Z
  else literal quantity.

(** [f] on every element, when it gives something for each. *)
Fixpoint traverse_opt {A B : Type} (f : A -> option B) (l : list A) : option (list B) :=
  match l with
  | [] => Some []
  | x :: rest =>
      match f x with
      | Some y => option_map (cons y) (traverse_opt f rest)
      | None => None
      end
  end.

(** The integer a text writes, said from its characters.  A blank is a
    tab, a line feed, a vertical tab, a form feed, a carriage return, a
    space, or a blank of another script; a digit is an ASCII digit or a
    decimal digit of another script, with its value. *)
Definition blank (cp : N) : bool :=
  existsb (N.eqb cp) ([9; 10; 11; 12; 13; 32]%N ++ unicode_spaces).

Definition digit (cp : N) : option Z :=
  if ((48 <=? cp) && (cp <=? 57))%N then Some (Z.of_N cp - 48)%Z
  else option_map Z.of_N (unicode_decimal cp).

(** The text without the blanks at its two ends. *)
Fixpoint without_leading_blanks (cps : list N) : list N :=
  match cps with
  | cp :: rest => if blank cp then without_leading_blanks rest else cps
  | [] => []
  end.

Definition without_trailing_blanks (cps : list N) : list N :=
  fold_right (fun cp kept =>
                match kept with
                | [] => if blank cp then [] else [cp]
                | _ => cp :: kept
                end) [] cps.

Definition trimmed (cps : list N) : list N :=
  without_trailing_blanks (without_leading_blanks cps).

(** The groups of characters between the underscores. *)
Fixpoint groups (cps : list N) : list (list N) :=
  match cps with
  | [] => [[]]
  | cp :: rest =>
      if (cp =? 95)%N then [] :: groups rest
      else match groups rest with
           | g :: gs => (cp :: g) :: gs
           | [] => [[cp]]
           end
  end.

(** The number that digits write: each digit weighs ten times the one
    after it. *)
Fixpoint positional (ds : list Z) : Z :=
  match ds with
  | [] => 0%Z
  | d :: rest => (d * 10 ^ Z.of_nat (length rest) + positional rest)%Z
  end.

(** A number without sign: groups of digits, none empty, with one
    underscore between two groups. *)
Definition unsigned (cps : list N) : option Z :=
  if forallb (fun g => negb (Nat.eqb (length g) 0)) (groups cps)
  then option_map positional (traverse_opt digit (concat (groups cps)))
  else None.

(** The integer a text writes: blanks, an optional sign, a number,
    blanks. *)
Definition integer_written (s : string) : option Z :=
  match code_points s with
  | Some cps =>
      match trimmed cps with
      | cp :: rest =>
          if (cp =? 45)%N then option_map Z.opp (unsigned rest)
          else if (cp =? 43)%N then unsigned rest
          else unsigned (cp :: rest)
      | [] => None
      end
  | None => None
  end.

(** A text whose first character after the blanks is the minus sign. *)
Definition has_minus_sign (s : string) : bool :=
  match code_points s with
  | Some cps =>
      match trimmed cps with
      | cp :: _ => (cp =? 45)%N
      | [] => false
      end
  | None => false
  end.

(** The list without the first element equal to [x], when it has one. *)
Definition without_first (x : string) (ids : list string) : list string :=
  match remove_first x ids with
  | Some ids' => ids'
  | None => ids
  end.

(** Step 1 of the mapper, row by row: a row is matched when its code is
    among the identifiers that no earlier row has taken. *)
Fixpoint taken (rows : list watch) (ids : list string) : list watch :=
  match rows with
  | [] => []
  | w :: rest =>
      if py_in (Kod w) ids then w :: taken rest (without_first (Kod w) ids)
      else taken rest ids
  end.

(** The identifiers left when every row has been read. *)
Fixpoint remaining (rows : list watch) (ids : list string) : list string :=
  match rows with
  | [] => ids
  | w :: rest =>
      if py_in (Kod w) ids then remaining rest (without_first (Kod w) ids)
      else remaining rest ids
  end.

(** The quantity [z] sent for the quantity text [q]: the two buckets,
    else the integer that [q] writes; a negative one only from a text
    with the minus sign. *)
Definition quantity_rule (q : string) (z : Z) : Prop :=
  (q = ">10" -> z = 100%Z) /\
  (q = "1" -> z = 0%Z) /\
  (q <> ">10" -> q <> "1" -> integer_written q = Some z) /\
  ((z < 0)%Z -> has_minus_sign q = true).

(** The first row of each code, in the order of the feed. *)
Fixpoint first_rows (rows : list watch) : list watch :=
  match rows with
  | [] => []
  | w :: rest =>
      w :: filter (fun v => negb (String.eqb (Kod v) (Kod w))) (first_rows rest)
  end.

(** The rows an identifier of the listing is matched to. *)
Definition matched_rows (rows : list watch) (ids : list string) : list watch :=
  filter (fun w => py_in (Kod w) ids) (first_rows rows).

(** The identifiers of the listing that are the code of no row. *)
Definition unmatched_ids (rows : list watch) (ids : list string) : list string :=
  filter (fun i => negb (py_in i (map Kod rows))) ids.

Fixpoint traverse {A B : Type} (f : A -> option B) (l : list A) : option (list B) :=
  match l with
  | [] => Some []
  | x :: rest =>
      match f x, traverse f rest with
      | Some y, Some ys => Some (y :: ys)
      | _, _ => None
      end
  end.

(** The stock updates as (identifier, quantity): the matched rows with
    their bucketed quantity, in the order of the feed, then the unmatched
    identifiers with quantity 0, in the order of the listing.  There is
    none when the quantity of a matched row has no bucket. *)
Definition stock_updates (rows : list watch) (ids : list string)
    : option (list (string * Z)) :=
  match traverse (fun w => option_map (pair (Kod w)) (bucket (Kolichestvo w)))
                 (matched_rows rows ids) with
  | Some matched => Some (matched ++ map (fun i => (i, 0%Z)) (unmatched_ids rows ids))
  | None => None
  end.

(** The price updates as (identifier, price text): every row whose code
    is in the listing, with its normalized price. *)
Definition price_updates (rows : list watch) (ids : list string)
    : list (string * string) :=
  map (fun w => (Kod w, normalize_price (Tsena w)))
      (filter (fun w => py_in (Kod w) ids) rows).

End Spec.

(** A group of characters that is not empty. *)
Definition nonempty (g : list N) : bool := negb (Nat.eqb (length g) 0).

(** What [int] looks at in a character, and what the text says of it. *)
Definition reads_alike (cp : N) : bool :=
  Bool.eqb (is_space (to_ascii cp)) (Spec.blank cp)
  && Bool.eqb (Ascii.eqb (to_ascii cp) "-") (cp =? 45)%N
  && Bool.eqb (Ascii.eqb (to_ascii cp) "+") (cp =? 43)%N
  && Bool.eqb (Ascii.eqb (to_ascii cp) "_") (cp =? 95)%N
  && match Spec.digit cp with
     | Some d => in_0_9 (to_ascii cp) && (digit_value (to_ascii cp) =? d)%Z
     | None => negb (in_0_9 (to_ascii cp))
     end.

(** What a call returned, seen through [view]; nothing when it raised. *)
Definition returned {A B S : Type} (view : A -> B) (r : result (list A * S))
    : option (list B) :=
  match r with
  | Ok (l, _) => Some (map view l)
  | Raise _ => None
  end.

Definition seller_pair (s : Seller.Stock) : string * Z :=
  (Seller.offer_id s, Seller.stock s).

(** The quantity of an entry of market.py is the count of its one item. *)
Definition market_pair (s : Market.Sku) : string * Z :=
  (Market.sku s,
   match Market.items s with
   | item :: _ => Market.count item
   | [] => 0%Z
   end).

(** The entry of market.py that carries what an entry of seller.py
    carries. *)
Definition market_entry_of (warehouse_id date : string) (s : Seller.Stock)
    : Market.Sku :=
  Market.entry (Seller.offer_id s) warehouse_id (Seller.stock s) date.

(** The entry of seller.py for a row, when its quantity has a bucket. *)
Definition seller_entry (w : watch) : option Seller.Stock :=
  option_map (Seller.mk_Stock (Kod w)) (Spec.bucket (Kolichestvo w)).

(** A feed, a listing and a reading of the clock to run the functions
    on. *)
Definition sample_feed : list watch :=
  [ mk_watch "A" ">10" "5'990.00";
    mk_watch "C" "7" "100.50";
    mk_watch "D" "1" "12.00";
    mk_watch "A" "3" "1.00" ].

Definition sample_listing : list string := ["B"; "A"; "D"].

(** A feed whose quantities take every branch of the bucketing: the two
    buckets, a negative integer between blanks, digits around an
    underscore, and the Arabic-Indic digit three, written by its two
    bytes. *)
Definition arabic_indic_three : string :=
  String (ascii_of_nat 217) (String (ascii_of_nat 163) EmptyString).

Definition quantity_feed : list watch :=
  [ mk_watch "A" ">10" "1.00";
    mk_watch "B" "1" "1.00";
    mk_watch "C" " -3 " "1.00";
    mk_watch "D" "1_0" "1.00";
    mk_watch "E" arabic_indic_three "1.00" ].

Definition quantity_listing : list string := ["A"; "B"; "C"; "D"; "E"].

Definition sample_clock : datetime := mk_datetime 2022 12 29 18 2 1 2500.

(** A marketplace Ozon that lists [listing] and accepts every push, a
    site that serves [feed]. *)
Definition seller_serving (listing : list string) (feed : list watch)
    : Seller.Remote :=
  {| Seller.get_offer_ids := fun _ _ => Ok listing;
     Seller.download_stock := Ok feed;
     Seller.update_stocks := fun _ _ _ => Ok tt;
     Seller.update_price := fun _ _ _ => Ok tt |}.

(** The same for the marketplace Yandex: [listing] for every campaign,
    and a clock that shows [clock k] at its k-th reading. *)
Definition market_serving (listing : list string) (feed : list watch)
    (clock : nat -> datetime) : Market.Remote :=
  {| Market.get_offer_ids := fun _ _ => Ok listing;
     Market.download_stock := Ok feed;
     Market.update_stocks := fun _ _ _ => Ok tt;
     Market.update_price := fun _ _ _ => Ok tt;
     Market.utcnow := clock |}.

(** The site is down: the download raises. *)
Definition market_site_down (listing : list string) (clock : nat -> datetime)
    : Market.Remote :=
  {| Market.get_offer_ids := fun _ _ => Ok listing;
     Market.download_stock := Raise (ConnectionError "timeworld.ru");
     Market.update_stocks := fun _ _ _ => Ok tt;
     Market.update_price := fun _ _ _ => Ok tt;
     Market.utcnow := clock |}.

(** The listing of the campaign "FBS" times out, every other call is
    answered. *)
Definition market_fbs_times_out (listing : list string) (feed : list watch)
    (clock : nat -> datetime) : Market.Remote :=
  {| Market.get_offer_ids := fun campaign_id _ =>
       if String.eqb campaign_id "FBS" then Raise ReadTimeout else Ok listing;
     Market.download_stock := Ok feed;
     Market.update_stocks := fun _ _ _ => Ok tt;
     Market.update_price := fun _ _ _ => Ok tt;
     Market.utcnow := clock |}.

(** Two runs meet the same outside: the same listings, the same feed,
    the same answers to the pushes.  The clock is not part of it. *)
Definition seller_same_outside (r1 r2 : Seller.Remote) : Prop :=
  (forall c t, Seller.get_offer_ids r1 c t = Seller.get_offer_ids r2 c t) /\
  Seller.download_stock r1 = Seller.download_stock r2 /\
  (forall b c t, Seller.update_stocks r1 b c t = Seller.update_stocks r2 b c t) /\
  (forall b c t, Seller.update_price r1 b c t = Seller.update_price r2 b c t).

Definition market_same_outside (r1 r2 : Market.Remote) : Prop :=
  (forall c t, Market.get_offer_ids r1 c t = Market.get_offer_ids r2 c t) /\
  Market.download_stock r1 = Market.download_stock r2 /\
  (forall b c t, Market.update_stocks r1 b c t = Market.update_stocks r2 b c t) /\
  (forall b c t, Market.update_price r1 b c t = Market.update_price r2 b c t).

(** Two readings of the clock fall in the same second. *)
Definition same_second (d1 d2 : datetime) : Prop :=
  replace_microsecond d1 0 = replace_microsecond d2 0.

(** A push holds at most [s] stock updates, or at most [p] price
    updates. *)
Definition seller_batch_within (s p : Z) (e : Seller.event) : Prop :=
  match e with
  | Seller.UpdateStocks stocks _ _ => (len stocks <= s)%Z
  | Seller.UpdatePrice prices _ _ => (len prices <= p)%Z
  | _ => True
  end.

Definition market_batch_within (s p : Z) (e : Market.event) : Prop :=
  match e with
  | Market.UpdateStocks stocks _ _ => (len stocks <= s)%Z
  | Market.UpdatePrice prices _ _ => (len prices <= p)%Z
  | _ => True
  end.

(** The line [main] prints for an exception. *)
Definition line_for (error : exn) : printed :=
  match error with
  | ReadTimeout => TimeoutLine
  | ConnectionError _ => ConnectionLine error
  | _ => Error2Line error
  end.

(** A feed of [n] rows with the codes 0000, 0001, ... *)
Definition numbered_feed (n : nat) : list watch :=
  map (fun k => mk_watch (zero_padded 4 k) "5" "100.00") (seq 0 n).

(** The sizes of the batches pushed, in the order of the calls. *)
Definition seller_price_batches (trace : list Seller.event) : list Z :=
  flat_map (fun e => match e with
                     | Seller.UpdatePrice prices _ _ => [len prices]
                     | _ => []
                     end) trace.

Definition seller_stock_batches (trace : list Seller.event) : list Z :=
  flat_map (fun e => match e with
                     | Seller.UpdateStocks stocks _ _ => [len stocks]
                     | _ => []
                     end) trace.

Definition market_price_batches (trace : list Market.event) : list Z :=
  flat_map (fun e => match e with
                     | Market.UpdatePrice prices _ _ => [len prices]
                     | _ => []
                     end) trace.

Definition market_stock_batches (trace : list Market.event) : list Z :=
  flat_map (fun e => match e with
                     | Market.UpdateStocks stocks _ _ => [len stocks]
                     | _ => []
                     end) trace.

(** The chunks counted in naturals: [c] pieces of [m] elements. *)
Definition pieces {A : Type} (m c : nat) (l : list A) : list (list A) :=
  map (fun k => firstn m (skipn (k * m) l)) (seq 0 c).

(** ** The listing of the identifiers

    [get_offer_ids] of each module asks the marketplace page after page.
    [get_product_list] is the request: it gives the value under "result"
    of the answer (nothing when the key is missing), or raises.  A
    product of seller.py carries its identifier; an entry of market.py
    carries it in its "offer", which may be missing.  The loop
    [while True] is run on a number of turns: with too few of them there
    is no outcome yet. *)

Module SellerListing.

Record product : Type := mk_product { offer_id : string }.

(** The value under "result": "items", "total" and "last_id", each one
    present or not. *)
Record page : Type := mk_page {
  items : option (list product);
  total : option Z;
  last_id : option string
}.

(** [total == len(product_list)] *)
Definition total_is (total : option Z) (n : Z) : bool :=
  match total with
  | Some t => (t =? n)%Z
  | None => false
  end.

Section Listing.
Variable get_product_list : option string -> result (option page).

(** The loop of [get_offer_ids]: the requests made, by the [last_id]
    they carry, and the products collected or the exception. *)
Fixpoint listing_loop (turns : nat) (last_id : option string)
    (product_list : list product) : option (io (option string) (list product)) :=
  match turns with
  | O => None
  | S turns =>
      match get_product_list last_id with
      | Raise e => Some ([last_id], Raise e)
      | Ok None =>
          Some ([last_id],
                Raise (OtherException "AttributeError: NoneType has no attribute get"))
      | Ok (Some some_prod) =>
          match items some_prod with
          | None =>
              Some ([last_id],
                    Raise (OtherException "TypeError: NoneType object is not iterable"))
          | Some more =>
              let product_list := product_list ++ more in
              if total_is (total some_prod) (len product_list)
              then Some ([last_id], Ok product_list)
              else
                match listing_loop turns (SellerListing.last_id some_prod) product_list with
                | Some (requests, outcome) => Some (last_id :: requests, outcome)
                | None => None
                end
          end
      end
  end.

(** [get_offer_ids(client_id, seller_token)], the two settings being
    those of [get_product_list]. *)
Definition get_offer_ids (turns : nat) : option (io (option string) (list string)) :=
  match listing_loop turns (Some EmptyString) [] with
  | Some (requests, outcome) =>
      Some (requests, (product_list <- outcome ;; Ok (map offer_id product_list))%py)
  | None => None
  end.

(** The requests [requests] were answered by [pages], each request
    carrying the [last_id] of the page before it. *)
Fixpoint answered (last_id : option string) (requests : list (option string))
    (pages : list page) : Prop :=
  match requests, pages with
  | [], [] => True
  | request :: requests, p :: pages =>
      request = last_id /\
      get_product_list request = Ok (Some p) /\
      answered (SellerListing.last_id p) requests pages
  | _, _ => False
  end.

End Listing.

(** The products of the pages, in the order of the pages. *)
Definition products_of (pages : list page) : list product :=
  flat_map (fun p => match items p with Some l => l | None => [] end) pages.

End SellerListing.

Module MarketListing.

(** An element of "offerMappingEntries": its "offer", when it has one,
    and the "shopSku" of the offer. *)
Record offer_info : Type := mk_offer { shopSku : string }.

Record entry : Type := mk_entry { offer : option offer_info }.

(** The value under "paging". *)
Record paging_info : Type := mk_paging { nextPageToken : option string }.

Record page : Type := mk_page {
  offerMappingEntries : option (list entry);
  paging : option paging_info
}.

(** [not page], for the token read from the answer: nothing, or the
    empty text. *)
Definition falsy (token : option string) : bool :=
  match token with
  | None => true
  | Some t => String.eqb t EmptyString
  end.

(** The loop [for product in product_list]: the value of
    [product.get("offer")] is asked for its "shopSku", which raises when
    the entry has no "offer". *)
Fixpoint skus_loop (product_list : list entry) (offer_ids : list string)
    : result (list string) :=
  match product_list with
  | [] => Ok offer_ids
  | product :: rest =>
      match offer product with
      | Some found => skus_loop rest (offer_ids ++ [shopSku found])
      | None =>
          Raise (OtherException "AttributeError: NoneType has no attribute get")
      end
  end.

Section Listing.
Variable get_product_list : option string -> result (option page).

Fixpoint listing_loop (turns : nat) (page_token : option string)
    (product_list : list entry) : option (io (option string) (list entry)) :=
  match turns with
  | O => None
  | S turns =>
      match get_product_list page_token with
      | Raise e => Some ([page_token], Raise e)
      | Ok None =>
          Some ([page_token],
                Raise (OtherException "AttributeError: NoneType has no attribute get"))
      | Ok (Some some_prod) =>
          match offerMappingEntries some_prod with
          | None =>
              Some ([page_token],
                    Raise (OtherException "TypeError: NoneType object is not iterable"))
          | Some more =>
              let product_list := product_list ++ more in
              match paging some_prod with
              | None =>
                  Some ([page_token],
                        Raise (OtherException "AttributeError: NoneType has no attribute get"))
              | Some info =>
                  if falsy (nextPageToken info)
                  then Some ([page_token], Ok product_list)
                  else
                    match listing_loop turns (nextPageToken info) product_list with
                    | Some (requests, outcome) => Some (page_token :: requests, outcome)
                    | None => None
                    end
              end
          end
      end
  end.

(** [get_offer_ids(campaign_id, market_token)]: the loop of the
    requests, then the loop over the entries collected. *)
Definition get_offer_ids (turns : nat) : option (io (option string) (list string)) :=
  match listing_loop turns (Some EmptyString) [] with
  | Some (requests, outcome) =>
      Some (requests, (product_list <- outcome ;; skus_loop product_list [])%py)
  | None => None
  end.

(** The token under "paging" of a page, when both are there. *)
Definition next_token (p : page) : option string :=
  match paging p with
  | Some info => nextPageToken info
  | None => None
  end.

Fixpoint answered (page_token : option string) (requests : list (option string))
    (pages : list page) : Prop :=
  match requests, pages with
  | [], [] => True
  | request :: requests, p :: pages =>
      request = page_token /\
      get_product_list request = Ok (Some p) /\
      answered (next_token p) requests pages
  | _, _ => False
  end.

End Listing.

Definition entries_of (pages : list page) : list entry :=
  flat_map (fun p => match offerMappingEntries p with Some l => l | None => [] end)
           pages.

(** The entry that carries the identifier [id]. *)
Definition entry_of (id : string) : entry := mk_entry (Some (mk_offer id)).

End MarketListing.

(** ** What the properties of the second part speak of *)

(** The price update of seller.py for a row. *)
Definition seller_price_of (w : watch) : Seller.Price :=
  {| Seller.auto_action_enabled := "UNKNOWN";
     Seller.currency_code := "RUB";
     Seller.price_offer_id := Kod w;
     Seller.old_price := "0";
     Seller.price := Spec.normalize_price (Tsena w) |}.



(** The rows whose code is in the listing. *)
Definition listed (ids : list string) (rows : list watch) : list watch :=
  filter (fun w => py_in (Kod w) ids) rows.

(** The batches pushed, in the order of the calls. *)
Definition seller_stocks_pushed (trace : list Seller.event) : list (list Seller.Stock) :=
  flat_map (fun e => match e with
                     | Seller.UpdateStocks stocks _ _ => [stocks]
                     | _ => []
                     end) trace.

Definition seller_prices_pushed (trace : list Seller.event) : list (list Seller.Price) :=
  flat_map (fun e => match e with
                     | Seller.UpdatePrice prices _ _ => [prices]
                     | _ => []
                     end) trace.

Definition market_stocks_pushed (trace : list Market.event) : list (list Market.Sku) :=
  flat_map (fun e => match e with
                     | Market.UpdateStocks stocks _ _ => [stocks]
                     | _ => []
                     end) trace.

Definition market_prices_pushed (trace : list Market.event) : list (list Market.Offer) :=
  flat_map (fun e => match e with
                     | Market.UpdatePrice prices _ _ => [prices]
                     | _ => []
                     end) trace.

(** The time stamp [create_stocks] of market.py writes in every entry. *)
Definition stamp (utcnow : datetime) : string :=
  String.append (isoformat (replace_microsecond utcnow 0)) "Z".

(** Answers to run the listings on.  Ozon: three products on two pages;
    and a marketplace that always answers the same page of three
    products with the total 2. *)
Definition ozon_two_pages (last_id : option string)
    : result (option SellerListing.page) :=
  match last_id with
  | Some id =>
      if String.eqb id EmptyString then
        Ok (Some (SellerListing.mk_page
                    (Some [SellerListing.mk_product "A"; SellerListing.mk_product "B"])
                    (Some 3%Z) (Some "B")))
      else if String.eqb id "B" then
        Ok (Some (SellerListing.mk_page
                    (Some [SellerListing.mk_product "C"]) (Some 3%Z) (Some "C")))
      else Raise (HTTPError 400)
  | None => Raise (HTTPError 400)
  end.

Definition ozon_wrong_total (last_id : option string)
    : result (option SellerListing.page) :=
  Ok (Some (SellerListing.mk_page
              (Some [SellerListing.mk_product "A"; SellerListing.mk_product "B";
                     SellerListing.mk_product "C"])
              (Some 2%Z) (Some "C"))).

(** Yandex: three entries on two pages; a marketplace whose second page
    is refused; one that gives the same token again and again; and one
    whose only page holds an entry without "offer". *)
Definition yandex_two_pages (page_token : option string)
    : result (option MarketListing.page) :=
  match page_token with
  | Some tok =>
      if String.eqb tok EmptyString then
        Ok (Some (MarketListing.mk_page
                    (Some [MarketListing.entry_of "A"; MarketListing.entry_of "B"])
                    (Some (MarketListing.mk_paging (Some "next")))))
      else if String.eqb tok "next" then
        Ok (Some (MarketListing.mk_page
                    (Some [MarketListing.entry_of "C"])
                    (Some (MarketListing.mk_paging None))))
      else Raise (HTTPError 400)
  | None => Raise (HTTPError 400)
  end.


Definition yandex_same_token (page_token : option string)
    : result (option MarketListing.page) :=
  Ok (Some (MarketListing.mk_page
              (Some [MarketListing.entry_of "A"])
              (Some (MarketListing.mk_paging (Some "again"))))).


(** * Properties *)

(** ** The chunker *)

Section Chunks.
Context {A : Type}.
Implicit Types (l : list A) (m c : nat).

Lemma pieces_succ m c l :
  pieces m (S c) l = firstn m l :: pieces m c (skipn m l).
Proof.
  unfold pieces. simpl. f_equal.
  rewrite <- seq_shift, map_map.
  apply map_ext. intros k. simpl.
  now rewrite Nat.add_comm, skipn_skipn.
Qed.

Lemma pieces_concat m c : forall l,
  length l <= c * m -> concat (pieces m c l) = l.
Proof.
  induction c as [|c IH]; intros l H.
  - simpl in H. destruct l; [reflexivity | simpl in H; lia].
  - rewrite pieces_succ. simpl. rewrite IH.
    + apply firstn_skipn.
    + rewrite length_skipn. simpl in H. lia.
Qed.

Lemma pieces_length_le m c l :
  Forall (fun ch => length ch <= m) (pieces m c l).
Proof.
  unfold pieces. apply Forall_forall. intros ch H.
  apply in_map_iff in H. destruct H as [k [<- _]].
  rewrite length_firstn. lia.
Qed.

Lemma pieces_full m c : forall l,
  c * m <= length l ->
  Forall (fun ch => length ch = m) (pieces m c l).
Proof.
  induction c as [|c IH]; intros l H.
  - constructor.
  - rewrite pieces_succ. simpl in H. constructor.
    + rewrite length_firstn. lia.
    + apply IH. rewrite length_skipn. lia.
Qed.

Lemma pieces_snoc m c l :
  pieces m (S c) l = pieces m c l ++ [firstn m (skipn (c * m) l)].
Proof.
  unfold pieces. rewrite seq_S, map_app. reflexivity.
Qed.

Lemma slice_nonneg l (i n : Z) :
  (0 <= i)%Z -> (0 <= n)%Z ->
  slice l i (i + n) = firstn (Z.to_nat n) (skipn (Z.to_nat i) l).
Proof.
  intros Hi Hn. unfold slice, clamp, len.
  destruct (Z.ltb_spec i 0); [lia|].
  destruct (Z.ltb_spec (i + n) 0); [lia|].
  remember (length l) as L eqn:HL.
  destruct (Z_le_gt_dec (i + n) (Z.of_nat L)) as [Hle|Hgt].
  - rewrite (Z.min_l (i + n)), (Z.min_l i) by lia.
    f_equal. lia.
  - rewrite (Z.min_r (i + n)) by lia.
    destruct (Z_le_gt_dec i (Z.of_nat L)) as [Hle'|Hgt'].
    + rewrite (Z.min_l i) by lia.
      rewrite !firstn_all2; try reflexivity; rewrite length_skipn; lia.
    + rewrite (Z.min_r i) by lia.
      rewrite !skipn_all2 by lia. now rewrite !firstn_nil.
Qed.

(** For a positive size, [divide] gives [pieces], their number rounded
    up. *)
Lemma divide_pieces l (n : Z) :
  (0 < n)%Z ->
  Seller.divide l n =
  Ok (pieces (Z.to_nat n) (Z.to_nat (range_length 0 (len l) n)) l).
Proof.
  intros Hn. unfold Seller.divide, range.
  destruct (Z.eqb_spec n 0); [lia|]. simpl.
  f_equal. unfold pieces. rewrite map_map. apply map_ext.
  intros k. rewrite slice_nonneg by lia. f_equal. f_equal. nia.
Qed.

Lemma range_length_bounds (L n : Z) :
  (0 <= L)%Z -> (0 < n)%Z ->
  (0 <= range_length 0 L n /\
   L <= range_length 0 L n * n /\
   (range_length 0 L n - 1) * n <= L)%Z.
Proof.
  intros HL Hn. unfold range_length.
  destruct (Z.ltb_spec 0 n); [|lia].
  destruct (Z.ltb_spec 0 L).
  - replace (L - 0 - 1)%Z with (L - 1)%Z by lia.
    pose proof (Z.div_mod (L - 1) n ltac:(lia)) as E.
    pose proof (Z.mod_pos_bound (L - 1) n Hn) as B.
    pose proof (Z.div_pos (L - 1) n ltac:(lia) Hn) as P.
    nia.
  - lia.
Qed.

(** Every chunk of [divide] has at most [n] elements: the bound the
    upload paths rely on. *)
Lemma divide_bounded l (n : Z) chunks :
  (0 < n)%Z -> Seller.divide l n = Ok chunks ->
  Forall (fun ch => (len ch <= n)%Z) chunks.
Proof.
  intros Hn H. rewrite divide_pieces in H by assumption.
  injection H as <-.
  eapply Forall_impl; [|apply pieces_length_le].
  intros ch Hc. unfold len. simpl in Hc. lia.
Qed.

(** C5. For every list and every chunk size n > 0, [divide] returns
    chunks whose concatenation is the list in its order; every chunk has
    at most n elements, and every chunk but the last has exactly n. *)
Theorem divide_partitions l (n : Z) :
  (0 < n)%Z ->
  exists chunks,
    Seller.divide l n = Ok chunks /\
    concat chunks = l /\
    Forall (fun ch => (len ch <= n)%Z) chunks /\
    (forall front last, chunks = front ++ [last] ->
       Forall (fun ch => len ch = n) front).
Proof.
  intros Hn.
  pose proof (range_length_bounds (len l) n ltac:(unfold len; lia) Hn)
    as (Hc0 & Hup & Hlow).
  remember (range_length 0 (len l) n) as cz eqn:Ecz.
  exists (pieces (Z.to_nat n) (Z.to_nat cz) l).
  split; [rewrite Ecz; now apply divide_pieces|].
  split; [|split].
  - apply pieces_concat. unfold len in Hup. nia.
  - eapply Forall_impl; [|apply pieces_length_le].
    intros ch Hc. unfold len. simpl in Hc. lia.
  - intros front last E.
    destruct (Z.to_nat cz) as [|c] eqn:Ec.
    + destruct front; discriminate E.
    + rewrite pieces_snoc in E. apply app_inj_tail in E as [<- _].
      eapply Forall_impl; [|apply pieces_full].
      * intros ch Hc. unfold len. simpl in Hc. lia.
      * unfold len in Hlow. nia.
Qed.

(** C6. For every list, [divide] with the chunk size 0 fails, and the
    failure is the ValueError of [range], the error Python raises for an
    argument of unacceptable value; it is not an arithmetic fault. *)
Theorem divide_zero_invalid_argument l :
  exists e,
    Seller.divide l 0 = Raise e /\
    e = ValueError "range() arg 3 must not be zero" /\
    is_invalid_argument e = true /\
    is_arithmetic_fault e = false.
Proof.
  eexists. split; [reflexivity|]. repeat split.
Qed.

End Chunks.

Lemma divide_partitions_witness :
  (0 < 3)%Z /\
  exists chunks,
    Seller.divide [1; 2; 3; 4; 5; 6; 7] 3 = Ok chunks /\
    concat chunks = [1; 2; 3; 4; 5; 6; 7] /\
    Forall (fun ch => (len ch <= 3)%Z) chunks /\
    (forall front last, chunks = front ++ [last] ->
       Forall (fun ch => len ch = 3%Z) front).
Proof.
  split; [lia|]. apply (divide_partitions [1; 2; 3; 4; 5; 6; 7] 3). lia.
Defined.


(** ** The price normalizer *)

Lemma before_first_period_cons (c : ascii) (s : string) :
  Spec.before_first_period (String c s) =
  if Ascii.eqb c "." then EmptyString
  else String c (Spec.before_first_period s).
Proof.
  unfold Spec.before_first_period.
  change (String.index 0 "." (String c s))
    with (if String.prefix "." (String c s) then Some 0
          else match String.index 0 "." s with
               | Some k => Some (S k)
               | None => None
               end).
  change (String.prefix "." (String c s))
    with (if ascii_dec "." c then String.prefix EmptyString s else false).
  destruct (ascii_dec "." c) as [<-|Hne].
  - replace (String.prefix EmptyString s) with true by now destruct s.
    reflexivity.
  - destruct (Ascii.eqb_spec c ".") as [E|_]; [congruence|].
    destruct (String.index 0 "." s) as [k|]; reflexivity.
Qed.

(** The first field of [split] is the text before the first period. *)
Lemma split_first_field (s : string) :
  exists fields, split "." s = Spec.before_first_period s :: fields.
Proof.
  induction s as [|c s [fields IH]].
  - now exists [].
  - rewrite before_first_period_cons. simpl.
    destruct (Ascii.eqb c ".").
    + now eexists.
    + rewrite IH. now eexists.
Qed.

Lemma in_0_9_is_ascii_digit (c : ascii) : in_0_9 c = Spec.is_ascii_digit c.
Proof.
  destruct c as [[] [] [] [] [] [] [] []]; reflexivity.
Qed.

Lemma re_sub_only_digits (s : string) :
  re_sub_not_0_9 s = Spec.only Spec.is_ascii_digit s.
Proof.
  induction s as [|c s IH]; simpl; [reflexivity|].
  now rewrite in_0_9_is_ascii_digit, IH.
Qed.

Lemma price_conversion_normalizes (raw : string) :
  Seller.price_conversion raw = Ok (Spec.normalize_price raw).
Proof.
  unfold Seller.price_conversion, Spec.normalize_price.
  destruct (split_first_field raw) as [fields ->]. simpl.
  now rewrite re_sub_only_digits.
Qed.

(** C3. For every text, [price_conversion] returns the text before the
    first period with every character that is not an ASCII digit taken
    out; "5'990.00" gives "5990" and "5.990.00" gives "5". *)
Theorem price_conversion_digits_before_first_period :
  (forall raw, Seller.price_conversion raw = Ok (Spec.normalize_price raw)) /\
  Seller.price_conversion "5'990.00" = Ok "5990" /\
  Seller.price_conversion "5.990.00" = Ok "5".
Proof.
  split; [exact price_conversion_normalizes|].
  split; reflexivity.
Qed.

(** ** The mapper *)

Lemma py_in_In (x : string) (l : list string) : py_in x l = true <-> In x l.
Proof.
  unfold py_in. rewrite existsb_exists. split.
  - intros [y [Hy E]]. apply String.eqb_eq in E. now subst.
  - intros H. exists x. split; [assumption | apply String.eqb_refl].
Qed.

Lemma py_in_false (x : string) (l : list string) :
  py_in x l = false <-> ~ In x l.
Proof.
  rewrite <- py_in_In. destruct (py_in x l); split; congruence.
Qed.

Lemma remove_first_known (x : string) (l : list string) :
  py_in x l = true -> exists l', remove_first x l = Some l'.
Proof.
  induction l as [|y l IH]; simpl; [discriminate|].
  destruct (String.eqb x y); simpl; intros H.
  - now eexists.
  - destruct (IH H) as [l' ->]. now eexists.
Qed.

(** Inside the guard [if ... in offer_ids], [remove] does not raise. *)
Lemma list_remove_known (x : string) (l : list string) :
  py_in x l = true -> list_remove x l = Ok (Spec.without_first x l).
Proof.
  intros H. unfold list_remove, Spec.without_first.
  now destruct (remove_first_known x l H) as [l' ->].
Qed.

Lemma stock_of_bucket (w : watch) :
  Seller.stock_of w =
  match Spec.bucket (Kolichestvo w) with
  | Some z => Ok z
  | None => Raise (ValueError "invalid literal for int() with base 10")
  end.
Proof.
  unfold Seller.stock_of, Spec.bucket, Spec.literal, py_int.
  destruct (String.eqb (Kolichestvo w) ">10"); [reflexivity|].
  destruct (String.eqb (Kolichestvo w) "1"); [reflexivity|].
  destruct (code_points _); [|reflexivity].
  now destruct (int_literal _).
Qed.

(** The first loop of [create_stocks], as step 1 of the mapper. *)
Lemma seller_stocks_loop_taken (rows : list watch) :
  forall ids acc,
    Seller.stocks_loop rows ids acc =
    match Spec.traverse seller_entry (Spec.taken rows ids) with
    | Some es => Ok (acc ++ es, Spec.remaining rows ids)
    | None => Raise (ValueError "invalid literal for int() with base 10")
    end.
Proof.
  induction rows as [|w rows IH]; intros ids acc; simpl.
  - now rewrite app_nil_r.
  - destruct (py_in (Kod w) ids) eqn:Hin; [|apply IH].
    rewrite stock_of_bucket. simpl. unfold seller_entry at 1.
    destruct (Spec.bucket (Kolichestvo w)) as [z|]; simpl; [|reflexivity].
    rewrite list_remove_known by assumption. simpl.
    rewrite IH.
    destruct (Spec.traverse seller_entry _) as [es|]; [|reflexivity].
    now rewrite <- app_assoc.
Qed.

Lemma seller_create_stocks_taken (rows : list watch) (ids : list string) :
  Seller.create_stocks rows ids =
  match Spec.traverse seller_entry (Spec.taken rows ids) with
  | Some es =>
      Ok (es ++ map (fun i => Seller.mk_Stock i 0) (Spec.remaining rows ids),
          Spec.remaining rows ids)
  | None => Raise (ValueError "invalid literal for int() with base 10")
  end.
Proof.
  unfold Seller.create_stocks. rewrite seller_stocks_loop_taken.
  now destruct (Spec.traverse seller_entry _).
Qed.

(** market.py builds the entries of seller.py, each in its own format. *)
Lemma market_stocks_loop_as_seller (rows : list watch) (wh date : string) :
  forall ids acc,
    Market.stocks_loop rows ids wh date (map (market_entry_of wh date) acc) =
    match Seller.stocks_loop rows ids acc with
    | Ok (stocks, ids') => Ok (map (market_entry_of wh date) stocks, ids')
    | Raise e => Raise e
    end.
Proof.
  induction rows as [|w rows IH]; intros ids acc; simpl; [reflexivity|].
  destruct (py_in (Kod w) ids); [|apply IH].
  change (Market.stock_of w) with (Seller.stock_of w).
  destruct (Seller.stock_of w) as [z|e]; simpl; [|reflexivity].
  destruct (list_remove (Kod w) ids) as [ids'|e]; simpl; [|reflexivity].
  rewrite <- IH. now rewrite map_app.
Qed.

Lemma market_create_stocks_as_seller (now : datetime) (rows : list watch)
    (ids : list string) (wh : string) :
  Market.create_stocks now rows ids wh =
  match Seller.create_stocks rows ids with
  | Ok (stocks, ids') =>
      Ok (map (market_entry_of wh
                 (String.append (isoformat (replace_microsecond now 0)) "Z"))
              stocks, ids')
  | Raise e => Raise e
  end.
Proof.
  unfold Market.create_stocks, Seller.create_stocks.
  rewrite (market_stocks_loop_as_seller rows wh _ ids []).
  destruct (Seller.stocks_loop rows ids []) as [[stocks ids']|e]; simpl;
    [|reflexivity].
  now rewrite map_app, map_map.
Qed.

Lemma market_pair_entry (wh date : string) (s : Seller.Stock) :
  market_pair (market_entry_of wh date s) = seller_pair s.
Proof. reflexivity. Qed.

Lemma without_first_cons (x y : string) (l : list string) :
  Spec.without_first x (y :: l) =
  if String.eqb x y then l else y :: Spec.without_first x l.
Proof.
  unfold Spec.without_first. simpl.
  destruct (String.eqb x y); [reflexivity|].
  now destruct (remove_first x l).
Qed.

Lemma filter_all (A : Type) (f : A -> bool) (l : list A) :
  (forall x, In x l -> f x = true) -> filter f l = l.
Proof.
  induction l as [|y l IH]; simpl; intros H; [reflexivity|].
  rewrite (H y) by now left. f_equal. apply IH. intros x Hx. apply H. now right.
Qed.

Lemma filter_twice (A : Type) (f g : A -> bool) (l : list A) :
  filter f (filter g l) = filter (fun x => g x && f x) l.
Proof.
  induction l as [|y l IH]; simpl; [reflexivity|].
  destruct (g y); simpl; [|assumption].
  destruct (f y); now rewrite IH.
Qed.

(** On a list of distinct identifiers, [remove] takes the identifier out
    altogether. *)
Lemma without_first_distinct (x : string) (ids : list string) :
  NoDup ids ->
  Spec.without_first x ids = filter (fun i => negb (String.eqb i x)) ids.
Proof.
  induction 1 as [|y l Hy Hl IH]; [reflexivity|].
  rewrite without_first_cons. simpl. rewrite (String.eqb_sym y x).
  destruct (String.eqb_spec x y) as [->|Hne]; simpl.
  - symmetry. apply filter_all. intros i Hi.
    destruct (String.eqb_spec i y) as [->|]; [contradiction | reflexivity].
  - now rewrite IH.
Qed.

Lemma py_in_filter (f : string -> bool) (x : string) (l : list string) :
  py_in x (filter f l) = f x && py_in x l.
Proof.
  induction l as [|y l IH]; simpl; [now rewrite andb_false_r|].
  destruct (f y) eqn:Hf; simpl; rewrite IH.
  - destruct (String.eqb_spec x y) as [->|]; simpl; [|reflexivity].
    now rewrite Hf.
  - destruct (String.eqb_spec x y) as [->|]; simpl; [|reflexivity].
    now rewrite Hf.
Qed.

Lemma remaining_unmatched (rows : list watch) :
  forall ids, NoDup ids -> Spec.remaining rows ids = Spec.unmatched_ids rows ids.
Proof.
  unfold Spec.unmatched_ids.
  induction rows as [|w rows IH]; intros ids Hids; simpl.
  - symmetry. now apply filter_all.
  - destruct (py_in (Kod w) ids) eqn:Hin.
    + rewrite without_first_distinct by assumption.
      rewrite IH by now apply NoDup_filter.
      rewrite filter_twice. apply filter_ext. intros i.
      now rewrite negb_orb.
    + rewrite IH by assumption. apply filter_ext_in. intros i Hi.
      destruct (String.eqb_spec i (Kod w)) as [->|]; [|reflexivity].
      apply py_in_false in Hin. contradiction.
Qed.

Lemma taken_matched (rows : list watch) :
  forall ids, NoDup ids -> Spec.taken rows ids = Spec.matched_rows rows ids.
Proof.
  unfold Spec.matched_rows.
  induction rows as [|w rows IH]; intros ids Hids; simpl; [reflexivity|].
  destruct (py_in (Kod w) ids) eqn:Hin.
  - f_equal. rewrite without_first_distinct by assumption.
    rewrite IH by now apply NoDup_filter.
    rewrite filter_twice. apply filter_ext. intros v.
    now rewrite py_in_filter.
  - rewrite IH by assumption. rewrite filter_twice.
    apply filter_ext. intros v.
    destruct (String.eqb_spec (Kod v) (Kod w)) as [E|]; [|reflexivity].
    simpl. now rewrite E.
Qed.

Lemma without_first_permutation (x : string) (ids : list string) :
  In x ids -> Permutation ids (x :: Spec.without_first x ids).
Proof.
  induction ids as [|y l IH]; simpl; [contradiction|].
  rewrite without_first_cons. intros H.
  destruct (String.eqb_spec x y) as [->|Hne]; [reflexivity|].
  destruct H as [->|H]; [congruence|].
  rewrite perm_swap. now constructor; apply IH.
Qed.

(** Every identifier of the listing is taken by one row or left: step 1
    moves identifiers, it neither drops nor copies one. *)
Lemma taken_remaining_permutation (rows : list watch) :
  forall ids,
    Permutation ids (map Kod (Spec.taken rows ids) ++ Spec.remaining rows ids).
Proof.
  induction rows as [|w rows IH]; intros ids; simpl; [reflexivity|].
  destruct (py_in (Kod w) ids) eqn:Hin; [|apply IH].
  simpl. rewrite <- IH. apply without_first_permutation. now apply py_in_In.
Qed.

Lemma traverse_seller_pairs (l : list watch) :
  Spec.traverse (fun w => option_map (pair (Kod w)) (Spec.bucket (Kolichestvo w))) l =
  option_map (map seller_pair) (Spec.traverse seller_entry l).
Proof.
  induction l as [|w l IH]; simpl; [reflexivity|].
  rewrite IH. clear IH. unfold seller_entry.
  destruct (Spec.bucket (Kolichestvo w)); simpl; [|reflexivity].
  now destruct (Spec.traverse _ l).
Qed.

Lemma traverse_Forall2 (A B : Type) (f : A -> option B) (l : list A) :
  forall ys, Spec.traverse f l = Some ys -> Forall2 (fun x y => f x = Some y) l ys.
Proof.
  induction l as [|x l IH]; simpl; intros ys H.
  - injection H as <-. constructor.
  - destruct (f x) as [y|] eqn:Hx; [|discriminate].
    destruct (Spec.traverse f l) as [ys'|]; [|discriminate].
    injection H as <-. constructor; [assumption | now apply IH].
Qed.

Lemma returned_market_seller (now : datetime) (rows : list watch)
    (ids : list string) (wh : string) :
  returned market_pair (Market.create_stocks now rows ids wh) =
  returned seller_pair (Seller.create_stocks rows ids).
Proof.
  rewrite market_create_stocks_as_seller.
  destruct (Seller.create_stocks rows ids) as [[stocks ids']|e]; simpl;
    [|reflexivity].
  rewrite map_map. f_equal.
Qed.

(** [create_stocks] seen as pairs, for any listing. *)
Lemma returned_seller_taken (rows : list watch) (ids : list string) :
  returned seller_pair (Seller.create_stocks rows ids) =
  match Spec.traverse (fun w => option_map (pair (Kod w)) (Spec.bucket (Kolichestvo w)))
                      (Spec.taken rows ids) with
  | Some matched =>
      Some (matched ++ map (fun i => (i, 0%Z)) (Spec.remaining rows ids))
  | None => None
  end.
Proof.
  rewrite seller_create_stocks_taken, traverse_seller_pairs.
  destruct (Spec.traverse seller_entry _) as [es|]; simpl; [|reflexivity].
  now rewrite map_app, map_map.
Qed.

Lemma traverse_pairs_fst (l : list watch) :
  forall out,
    Spec.traverse (fun w => option_map (pair (Kod w)) (Spec.bucket (Kolichestvo w))) l
      = Some out ->
    map fst out = map Kod l.
Proof.
  intros out H. apply traverse_Forall2 in H.
  induction H as [|w p l out Hp _ IH]; simpl; [reflexivity|].
  destruct (Spec.bucket (Kolichestvo w)); [|discriminate].
  injection Hp as <-. simpl. now rewrite IH.
Qed.

(** C1. For every feed and every listing of distinct identifiers,
    [create_stocks] of either module returns the updates of the
    specification: the matched identifiers with their bucketed
    quantity, in the order of the feed, then the unmatched ones with
    quantity 0, in the order of the listing (it raises exactly when the
    quantity of a matched row has no bucket); and the list returned holds
    every identifier of the listing exactly once, and no other. *)
Theorem create_stocks_every_known_id_once (now : datetime) (rows : list watch)
    (ids : list string) (warehouse_id : string) :
  NoDup ids ->
  returned seller_pair (Seller.create_stocks rows ids) = Spec.stock_updates rows ids /\
  returned market_pair (Market.create_stocks now rows ids warehouse_id)
    = Spec.stock_updates rows ids /\
  forall out, Spec.stock_updates rows ids = Some out ->
    map fst out = map Kod (Spec.matched_rows rows ids) ++ Spec.unmatched_ids rows ids /\
    Permutation ids (map fst out) /\
    forall i, In i ids -> count_occ string_dec (map fst out) i = 1.
Proof.
  intros Hids.
  assert (E : returned seller_pair (Seller.create_stocks rows ids)
              = Spec.stock_updates rows ids).
  { rewrite returned_seller_taken. unfold Spec.stock_updates.
    now rewrite taken_matched, remaining_unmatched. }
  split; [exact E|]. split; [now rewrite returned_market_seller|].
  intros out Hout. unfold Spec.stock_updates in Hout.
  destruct (Spec.traverse _ (Spec.matched_rows rows ids)) as [matched|] eqn:Hm;
    [|discriminate].
  injection Hout as <-.
  assert (F : map fst (matched ++ map (fun i => (i, 0%Z)) (Spec.unmatched_ids rows ids))
              = map Kod (Spec.matched_rows rows ids) ++ Spec.unmatched_ids rows ids).
  { rewrite map_app, map_map. simpl. rewrite map_id.
    now rewrite (traverse_pairs_fst _ _ Hm). }
  assert (P : Permutation ids
                (map Kod (Spec.matched_rows rows ids) ++ Spec.unmatched_ids rows ids)).
  { rewrite <- taken_matched, <- remaining_unmatched by assumption.
    apply taken_remaining_permutation. }
  rewrite F. split; [reflexivity|]. split; [exact P|].
  intros i Hi. apply NoDup_count_occ'.
  - eapply Permutation_NoDup; eassumption.
  - eapply Permutation_in; eassumption.
Qed.

Lemma create_stocks_every_known_id_once_witness :
  NoDup sample_listing /\
  returned seller_pair (Seller.create_stocks sample_feed sample_listing)
    = Some [("A", 100%Z); ("D", 0%Z); ("B", 0%Z)] /\
  returned market_pair (Market.create_stocks sample_clock sample_feed sample_listing "w")
    = Some [("A", 100%Z); ("D", 0%Z); ("B", 0%Z)].
Proof.
  assert (H : NoDup sample_listing).
  { repeat constructor; simpl; intuition discriminate. }
  split; [exact H|].
  destruct (create_stocks_every_known_id_once sample_clock sample_feed
              sample_listing "w" H) as (Es & Em & _).
  rewrite Es, Em. split; reflexivity.
Defined.

(** ** The bucketed quantity *)

Lemma digit_value_nonneg (c : ascii) : in_0_9 c = true -> (0 <= digit_value c)%Z.
Proof.
  unfold in_0_9, digit_value. intros H.
  apply andb_prop in H as [H _]. apply Nat.leb_le in H. lia.
Qed.

Lemma digits_nonneg (cs : list ascii) :
  forall acc after z,
    (0 <= acc)%Z -> digits acc after cs = Some z -> (0 <= z)%Z.
Proof.
  induction cs as [|c cs IH]; cbn [digits]; intros acc after z Hacc H.
  - destruct after; [injection H as <-; assumption | discriminate].
  - destruct (in_0_9 c) eqn:Hc.
    + eapply IH; [|eassumption].
      pose proof (digit_value_nonneg c Hc). lia.
    + destruct (Ascii.eqb c "_"); [|discriminate].
      destruct after; [|discriminate]. eapply IH; eassumption.
Qed.

(** *** The integer a text writes

    [int] reads the ASCII copy of the text with an automaton; the text
    itself says which integer it writes.  The two agree on every text. *)

Lemma reads_alike_below_127 :
  forallb reads_alike (map N.of_nat (seq 0 127)) = true.
Proof. vm_compute. reflexivity. Qed.

Lemma reads_alike_spaces : forallb reads_alike unicode_spaces = true.
Proof. vm_compute. reflexivity. Qed.

Lemma unicode_decimal_below_10 (cp d : N) :
  unicode_decimal cp = Some d ->
  (d < 10)%N /\ (127 <= cp)%N /\ existsb (N.eqb cp) unicode_spaces = false.
Proof.
  unfold unicode_decimal.
  destruct (find _ unicode_zeros) as [zero|] eqn:Hf; [|discriminate].
  intros H. injection H as <-.
  apply find_some in Hf as [Hin Hz].
  apply andb_prop in Hz as [Hlo Hhi].
  apply N.leb_le in Hlo. apply N.ltb_lt in Hhi.
  assert (Hzero : forallb (fun z => (1632 <=? z)%N) unicode_zeros = true)
    by (vm_compute; reflexivity).
  rewrite forallb_forall in Hzero. specialize (Hzero zero Hin).
  apply N.leb_le in Hzero.
  repeat split; try lia.
  destruct (existsb (N.eqb cp) unicode_spaces) eqn:Hs; [|reflexivity].
  exfalso. apply existsb_exists in Hs as (sp & Hsp & Heq).
  apply N.eqb_eq in Heq. subst sp.
  assert (Hd : forallb (fun sp => forallb (fun z => negb ((z <=? sp) && (sp <? z + 10))%N)
                                   unicode_zeros) unicode_spaces = true)
    by (vm_compute; reflexivity).
  rewrite forallb_forall in Hd. specialize (Hd cp Hsp).
  rewrite forallb_forall in Hd. specialize (Hd zero Hin).
  apply negb_true_iff, andb_false_iff in Hd as [Hd|Hd].
  - apply N.leb_gt in Hd. lia.
  - apply N.ltb_ge in Hd. lia.
Qed.

Lemma reads_alike_all (cp : N) : reads_alike cp = true.
Proof.
  destruct (N.ltb_spec cp 127) as [Hlt|Hge].
  - pose proof reads_alike_below_127 as H. rewrite forallb_forall in H.
    apply H. apply in_map_iff. exists (N.to_nat cp). split; [apply N2Nat.id|].
    apply in_seq. lia.
  - destruct (existsb (N.eqb cp) unicode_spaces) eqn:Hs.
    + pose proof reads_alike_spaces as H. rewrite forallb_forall in H.
      apply existsb_exists in Hs as (sp & Hsp & Heq).
      apply N.eqb_eq in Heq. subst sp. now apply H.
    + unfold reads_alike, Spec.digit, Spec.blank, to_ascii.
      rewrite existsb_app, Hs.
      destruct (N.ltb_spec cp 127) as [?|_]; [lia|].
      replace ((48 <=? cp) && (cp <=? 57))%N with false
        by (symmetry; apply andb_false_iff; right; apply N.leb_gt; lia).
      replace (existsb (N.eqb cp) [9; 10; 11; 12; 13; 32]%N) with false.
      2:{ symmetry. simpl. repeat (rewrite (proj2 (N.eqb_neq cp _)) by lia).
          reflexivity. }
      replace (cp =? 45)%N with false by (symmetry; apply N.eqb_neq; lia).
      replace (cp =? 43)%N with false by (symmetry; apply N.eqb_neq; lia).
      replace (cp =? 95)%N with false by (symmetry; apply N.eqb_neq; lia).
      destruct (unicode_decimal cp) as [d|] eqn:Hd; [|reflexivity].
      apply unicode_decimal_below_10 in Hd as (Hd & _ & _).
      assert (Hall : forallb (fun d =>
                 let c := ascii_of_N (48 + d) in
                 negb (is_space c) && negb (Ascii.eqb c "-")
                 && negb (Ascii.eqb c "+") && negb (Ascii.eqb c "_")
                 && in_0_9 c && (digit_value c =? Z.of_N d)%Z)
               (map N.of_nat (seq 0 10)) = true) by (vm_compute; reflexivity).
      rewrite forallb_forall in Hall.
      assert (Hin : In d (map N.of_nat (seq 0 10))).
      { apply in_map_iff. exists (N.to_nat d). split; [apply N2Nat.id|].
        apply in_seq. lia. }
      specialize (Hall d Hin). cbv zeta in Hall.
      repeat (apply andb_prop in Hall as [Hall ?]).
      repeat match goal with
             | H : negb _ = true |- _ => apply negb_true_iff in H; rewrite H
             | H : _ = true |- _ => rewrite H
             end.
      simpl. assumption.
Qed.

Lemma is_space_to_ascii (cp : N) : is_space (to_ascii cp) = Spec.blank cp.
Proof.
  pose proof (reads_alike_all cp) as H. unfold reads_alike in H.
  repeat (apply andb_prop in H as [H _]). now apply eqb_prop.
Qed.

Lemma minus_to_ascii (cp : N) : Ascii.eqb (to_ascii cp) "-" = (cp =? 45)%N.
Proof.
  pose proof (reads_alike_all cp) as H. unfold reads_alike in H.
  apply andb_prop in H as [H _]. apply andb_prop in H as [H _].
  apply andb_prop in H as [H _]. apply andb_prop in H as [_ H].
  now apply eqb_prop.
Qed.

Lemma plus_to_ascii (cp : N) : Ascii.eqb (to_ascii cp) "+" = (cp =? 43)%N.
Proof.
  pose proof (reads_alike_all cp) as H. unfold reads_alike in H.
  apply andb_prop in H as [H _]. apply andb_prop in H as [H _].
  apply andb_prop in H as [_ H].
  now apply eqb_prop.
Qed.

Lemma underscore_to_ascii (cp : N) : Ascii.eqb (to_ascii cp) "_" = (cp =? 95)%N.
Proof.
  pose proof (reads_alike_all cp) as H. unfold reads_alike in H.
  apply andb_prop in H as [H _]. apply andb_prop in H as [_ H].
  now apply eqb_prop.
Qed.

Lemma digit_to_ascii (cp : N) :
  Spec.digit cp =
  if in_0_9 (to_ascii cp) then Some (digit_value (to_ascii cp)) else None.
Proof.
  pose proof (reads_alike_all cp) as H. unfold reads_alike in H.
  apply andb_prop in H as [_ H].
  destruct (Spec.digit cp) as [d|].
  - apply andb_prop in H as [-> H]. apply Z.eqb_eq in H. now subst.
  - apply negb_true_iff in H. now rewrite H.
Qed.

Lemma lstrip_to_ascii (cps : list N) :
  lstrip (map to_ascii cps) = map to_ascii (Spec.without_leading_blanks cps).
Proof.
  induction cps as [|cp cps IH]; [reflexivity|].
  cbn [map lstrip Spec.without_leading_blanks].
  rewrite is_space_to_ascii. now destruct (Spec.blank cp).
Qed.

Lemma lstrip_last (cs : list ascii) (c : ascii) :
  lstrip (cs ++ [c]) =
  match lstrip cs with
  | [] => if is_space c then [] else [c]
  | kept => kept ++ [c]
  end.
Proof.
  induction cs as [|x cs IH]; [reflexivity|].
  cbn [app lstrip]. destruct (is_space x); [exact IH | reflexivity].
Qed.

Lemma rstrip_to_ascii (cps : list N) :
  rev (lstrip (rev (map to_ascii cps)))
  = map to_ascii (Spec.without_trailing_blanks cps).
Proof.
  induction cps as [|cp cps IH]; [reflexivity|].
  cbn [map rev]. rewrite lstrip_last.
  unfold Spec.without_trailing_blanks in *. cbn [fold_right].
  destruct (fold_right _ [] cps) as [|k kept].
  - destruct (lstrip (rev (map to_ascii cps))) as [|y ys].
    + rewrite is_space_to_ascii. now destruct (Spec.blank cp).
    + exfalso. simpl in IH. now destruct (rev ys).
  - destruct (lstrip (rev (map to_ascii cps))) as [|y ys]; [discriminate IH|].
    rewrite rev_app_distr. change (rev [to_ascii cp]) with [to_ascii cp].
    cbn [app]. now rewrite IH.
Qed.

Lemma strip_to_ascii (cps : list N) :
  strip (map to_ascii cps) = map to_ascii (Spec.trimmed cps).
Proof.
  unfold strip, Spec.trimmed. rewrite lstrip_to_ascii. apply rstrip_to_ascii.
Qed.

Lemma groups_not_nil (cps : list N) : Spec.groups cps <> [].
Proof.
  destruct cps as [|cp cps]; [discriminate|]. cbn [Spec.groups].
  destruct (cp =? 95)%N; [discriminate|].
  now destruct (Spec.groups cps).
Qed.

Lemma digits_groups (cps : list N) :
  forall acc after,
    digits acc after (map to_ascii cps) =
    match Spec.groups cps with
    | g :: gs =>
        if (after || nonempty g) && forallb nonempty gs
        then option_map (fun ds => fold_left (fun a d => (10 * a + d)%Z) ds acc)
                        (Spec.traverse_opt Spec.digit (g ++ concat gs))
        else None
    | [] => None
    end.
Proof.
  induction cps as [|cp cps IH]; intros acc after.
  - cbn. now destruct after.
  - cbn [map digits Spec.groups].
    rewrite underscore_to_ascii.
    pose proof (digit_to_ascii cp) as Hd.
    destruct (in_0_9 (to_ascii cp)) eqn:Hin.
    + assert (H95 : (cp =? 95)%N = false).
      { rewrite <- underscore_to_ascii.
        destruct (to_ascii cp) as [[] [] [] [] [] [] [] []];
          solve [discriminate Hin | reflexivity]. }
      rewrite H95, IH.
      pose proof (groups_not_nil cps) as Hne.
      destruct (Spec.groups cps) as [|g gs]; [congruence|].
      cbn [app Spec.traverse_opt]. rewrite Hd.
      replace (after || nonempty (cp :: g)) with true by now destruct after.
      cbn [orb]. destruct (forallb nonempty gs); [|reflexivity]. cbn [andb].
      now destruct (Spec.traverse_opt Spec.digit (g ++ concat gs)).
    + destruct (cp =? 95)%N.
      * cbn [nonempty length Nat.eqb negb app concat].
        rewrite orb_false_r.
        destruct after; [|reflexivity].
        rewrite IH. cbn [orb andb forallb].
        pose proof (groups_not_nil cps) as Hne.
        destruct (Spec.groups cps) as [|g gs]; [congruence|]. reflexivity.
      * pose proof (groups_not_nil cps) as Hne.
        destruct (Spec.groups cps) as [|g gs]; [congruence|].
        cbn [app Spec.traverse_opt]. rewrite Hd.
        now destruct ((after || nonempty (cp :: g)) && forallb nonempty gs).
Qed.

Lemma fold_left_positional (ds : list Z) :
  forall acc,
    fold_left (fun a d => (10 * a + d)%Z) ds acc
    = (acc * 10 ^ Z.of_nat (length ds) + Spec.positional ds)%Z.
Proof.
  induction ds as [|d ds IH]; intros acc; cbn [fold_left Spec.positional length].
  - change (Z.of_nat 0) with 0%Z. rewrite Z.pow_0_r. lia.
  - rewrite IH, Nat2Z.inj_succ, Z.pow_succ_r by lia. lia.
Qed.

Lemma digits_unsigned (cps : list N) :
  digits 0 false (map to_ascii cps) = Spec.unsigned cps.
Proof.
  rewrite digits_groups. unfold Spec.unsigned.
  pose proof (groups_not_nil cps) as Hne.
  destruct (Spec.groups cps) as [|g gs]; [congruence|].
  cbn [orb forallb concat]. fold (nonempty g).
  change (forallb (fun g0 => negb (Nat.eqb (length g0) 0)) gs)
    with (forallb nonempty gs).
  destruct (nonempty g && forallb nonempty gs); [|reflexivity].
  destruct (Spec.traverse_opt Spec.digit (g ++ concat gs)) as [ds|]; [|reflexivity].
  cbn [option_map]. now rewrite fold_left_positional.
Qed.

(** [int] gives the integer that the text writes, and raises ValueError
    when the text writes none. *)
Lemma py_int_integer_written (s : string) :
  py_int s =
  match Spec.integer_written s with
  | Some z => Ok z
  | None => Raise (ValueError "invalid literal for int() with base 10")
  end.
Proof.
  unfold py_int, Spec.integer_written.
  destruct (code_points s) as [cps|]; [|reflexivity].
  rewrite strip_to_ascii.
  destruct (Spec.trimmed cps) as [|cp rest]; [reflexivity|].
  cbn [map int_literal].
  rewrite minus_to_ascii, plus_to_ascii.
  change (to_ascii cp :: map to_ascii rest) with (map to_ascii (cp :: rest)).
  rewrite !digits_unsigned.
  destruct (cp =? 45)%N; [now destruct (Spec.unsigned rest)|].
  destruct (cp =? 43)%N; [now destruct (Spec.unsigned rest)|].
  now destruct (Spec.unsigned (cp :: rest)).
Qed.

Lemma literal_integer_written (s : string) :
  Spec.literal s = Spec.integer_written s.
Proof.
  unfold Spec.literal. rewrite py_int_integer_written.
  now destruct (Spec.integer_written s).
Qed.

(** [int] gives a negative integer only for a text with the minus
    sign. *)
Lemma py_int_negative (q : string) (z : Z) :
  py_int q = Ok z -> (z < 0)%Z -> Spec.has_minus_sign q = true.
Proof.
  unfold py_int, Spec.has_minus_sign.
  destruct (code_points q) as [cps|]; [|discriminate].
  rewrite strip_to_ascii.
  destruct (Spec.trimmed cps) as [|cp rest]; [discriminate|].
  cbn [map int_literal]. rewrite minus_to_ascii.
  destruct (cp =? 45)%N; [reflexivity|].
  intros H Hz. exfalso.
  destruct (Ascii.eqb (to_ascii cp) "+").
  - destruct (digits 0 false (map to_ascii rest)) as [z'|] eqn:Hd; [|discriminate].
    injection H as <-. apply digits_nonneg in Hd; lia.
  - destruct (digits 0 false (to_ascii cp :: map to_ascii rest)) as [z'|] eqn:Hd;
      [|discriminate].
    injection H as <-. apply digits_nonneg in Hd; lia.
Qed.

Lemma bucket_quantity_rule (q : string) (z : Z) :
  Spec.bucket q = Some z -> Spec.quantity_rule q z.
Proof.
  unfold Spec.bucket, Spec.quantity_rule.
  destruct (String.eqb_spec q ">10") as [->|H10].
  { intros H. injection H as <-. repeat split; intros; try lia; congruence. }
  destruct (String.eqb_spec q "1") as [->|H1].
  { intros H. injection H as <-. repeat split; intros; try lia; congruence. }
  intros H. repeat split; intros; try congruence.
  - now rewrite <- literal_integer_written.
  - unfold Spec.literal in H.
    destruct (py_int q) as [z'|e] eqn:Hq; [|discriminate].
    injection H as ->. eapply py_int_negative; eassumption.
Qed.

(** C4, as amended.  For every matched row the quantity of its update is
    100 for the text ">10", 0 for the text "1" and otherwise the integer
    that the text writes: between blanks, an optional sign and digits,
    of any script, where one underscore may stand between two digits.
    No check of the sign is made; the quantity is negative only when the
    text has the minus sign. *)
Theorem matched_quantity_bucketed (now : datetime) (warehouse_id : string)
    (rows : list watch) (ids : list string) (out : list (string * Z)) :
  returned seller_pair (Seller.create_stocks rows ids) = Some out \/
  returned market_pair (Market.create_stocks now rows ids warehouse_id) = Some out ->
  Forall2 (fun w p => fst p = Kod w /\ Spec.quantity_rule (Kolichestvo w) (snd p))
          (Spec.taken rows ids)
          (firstn (length (Spec.taken rows ids)) out).
Proof.
  rewrite returned_market_seller, returned_seller_taken.
  intros H. assert (H' := match H with or_introl h | or_intror h => h end).
  clear H.
  destruct (Spec.traverse _ (Spec.taken rows ids)) as [matched|] eqn:Hm;
    [|discriminate].
  injection H' as <-.
  apply traverse_Forall2 in Hm.
  rewrite (Forall2_length Hm), firstn_app, firstn_all, Nat.sub_diag.
  simpl. rewrite app_nil_r.
  eapply Forall2_impl; [|exact Hm].
  intros w [i z] Hp. simpl in *.
  destruct (Spec.bucket (Kolichestvo w)) as [z'|] eqn:Hb; [|discriminate].
  injection Hp as <- <-. split; [reflexivity|].
  now apply bucket_quantity_rule.
Qed.

Lemma matched_quantity_bucketed_witness :
  returned seller_pair (Seller.create_stocks quantity_feed quantity_listing)
    = Some [("A", 100%Z); ("B", 0%Z); ("C", (-3)%Z); ("D", 10%Z); ("E", 3%Z)] /\
  Forall2 (fun w p => fst p = Kod w /\ Spec.quantity_rule (Kolichestvo w) (snd p))
          (Spec.taken quantity_feed quantity_listing)
          (firstn (length (Spec.taken quantity_feed quantity_listing))
                  [("A", 100%Z); ("B", 0%Z); ("C", (-3)%Z); ("D", 10%Z); ("E", 3%Z)]).
Proof.
  split; [reflexivity|].
  apply (matched_quantity_bucketed sample_clock "w" quantity_feed quantity_listing).
  left. reflexivity.
Defined.

(** The claim of C4 fails for the sign: a matched row whose quantity text
    is "-5" is sent with the quantity -5, by either module. *)
Lemma negative_quantity_sent :
  Seller.create_stocks [mk_watch "A" "-5" "100.00"] ["A"]
    = Ok ([Seller.mk_Stock "A" (-5)], []) /\
  returned market_pair
    (Market.create_stocks sample_clock [mk_watch "A" "-5" "100.00"] ["A"] "w")
    = Some [("A", (-5)%Z)] /\
  (-5 < 0)%Z.
Proof.
  repeat split.
Qed.

(** ** The caller's list of identifiers *)

Lemma seller_prices_loop_keeps (rows : list watch) :
  forall ids acc,
    exists prices, Seller.prices_loop rows ids acc = Ok (prices, ids).
Proof.
  induction rows as [|w rows IH]; intros ids acc; simpl.
  - now eexists.
  - destruct (py_in (Kod w) ids); [|apply IH].
    rewrite price_conversion_normalizes. simpl. apply IH.
Qed.

Lemma market_prices_loop_keeps (rows : list watch) :
  forall ids acc prices ids',
    Market.prices_loop rows ids acc = Ok (prices, ids') -> ids' = ids.
Proof.
  induction rows as [|w rows IH]; intros ids acc prices ids'; simpl.
  - intros H. now injection H.
  - destruct (py_in (Kod w) ids); [|apply IH].
    destruct (Seller.price_conversion (Tsena w)) as [converted|e]; simpl;
      [|discriminate].
    destruct (py_int converted) as [value|e]; simpl; [|discriminate].
    apply IH.
Qed.

Lemma seller_create_stocks_leaves (rows : list watch) (ids : list string)
    (stocks : list Seller.Stock) (ids' : list string) :
  Seller.create_stocks rows ids = Ok (stocks, ids') ->
  ids' = Spec.remaining rows ids.
Proof.
  rewrite seller_create_stocks_taken.
  destruct (Spec.traverse seller_entry _); [|discriminate].
  intros H. now injection H.
Qed.

Lemma market_create_stocks_leaves (now : datetime) (rows : list watch)
    (ids : list string) (wh : string) (stocks : list Market.Sku)
    (ids' : list string) :
  Market.create_stocks now rows ids wh = Ok (stocks, ids') ->
  ids' = Spec.remaining rows ids.
Proof.
  rewrite market_create_stocks_as_seller.
  destruct (Seller.create_stocks rows ids) as [[st i]|e] eqn:E; [|discriminate].
  intros H. injection H as _ <-.
  eapply seller_create_stocks_leaves; eassumption.
Qed.

(** C10, as amended.  When the identifiers of [offer_ids] are distinct,
    then after [create_stocks] has returned, in either module, the
    caller's [offer_ids] holds exactly the identifiers that are the code
    of no row, in their order.  [create_prices] leaves [offer_ids] as it
    was, for any list, distinct or not: the one of seller.py always
    returns, the one of market.py whenever it returns. *)
Theorem offer_ids_after_the_mappers (now : datetime) (warehouse_id : string)
    (rows : list watch) (ids : list string) :
  (NoDup ids ->
   (forall stocks ids',
      Seller.create_stocks rows ids = Ok (stocks, ids') ->
      ids' = Spec.unmatched_ids rows ids) /\
   (forall stocks ids',
      Market.create_stocks now rows ids warehouse_id = Ok (stocks, ids') ->
      ids' = Spec.unmatched_ids rows ids)) /\
  (exists prices, Seller.create_prices rows ids = Ok (prices, ids)) /\
  (forall prices ids',
     Market.create_prices rows ids = Ok (prices, ids') -> ids' = ids).
Proof.
  split; [intros Hids; split | split].
  - intros stocks ids' H. rewrite <- remaining_unmatched by assumption.
    eapply seller_create_stocks_leaves; eassumption.
  - intros stocks ids' H. rewrite <- remaining_unmatched by assumption.
    eapply market_create_stocks_leaves; eassumption.
  - apply seller_prices_loop_keeps.
  - intros prices ids'. apply market_prices_loop_keeps.
Qed.

Lemma offer_ids_after_the_mappers_witness :
  NoDup sample_listing /\
  (forall stocks ids',
     Seller.create_stocks sample_feed sample_listing = Ok (stocks, ids') ->
     ids' = ["B"]) /\
  (exists prices,
     Seller.create_prices sample_feed ["A"; "A"] = Ok (prices, ["A"; "A"])) /\
  (forall prices ids',
     Market.create_prices sample_feed ["A"; "A"] = Ok (prices, ids') ->
     ids' = ["A"; "A"]).
Proof.
  assert (H : NoDup sample_listing).
  { repeat constructor; simpl; intuition discriminate. }
  split; [exact H|].
  split.
  - exact (proj1 (proj1 (offer_ids_after_the_mappers sample_clock "w" sample_feed
                           sample_listing) H)).
  - exact (proj2 (offer_ids_after_the_mappers sample_clock "w" sample_feed
                    ["A"; "A"])).
Defined.

(** The claim of C10 fails on a listing that holds an identifier twice:
    [remove] takes out the first one only, so "A", the code of the row,
    is still in [offer_ids] after the call. *)
Lemma duplicate_id_left_behind :
  Seller.create_stocks [mk_watch "A" "5" "1.00"] ["A"; "A"]
    = Ok ([Seller.mk_Stock "A" 5; Seller.mk_Stock "A" 0], ["A"]) /\
  Spec.unmatched_ids [mk_watch "A" "5" "1.00"] ["A"; "A"] = [].
Proof.
  split; reflexivity.
Qed.

(** ** The price list of a full run of seller.py *)

Lemma row_code_not_unmatched (rows : list watch) (ids : list string) (w : watch) :
  In w rows -> py_in (Kod w) (Spec.unmatched_ids rows ids) = false.
Proof.
  intros Hw. unfold Spec.unmatched_ids. rewrite py_in_filter.
  replace (py_in (Kod w) (map Kod rows)) with true; [reflexivity|].
  symmetry. apply py_in_In. now apply in_map.
Qed.

Lemma seller_prices_loop_none_known (rows : list watch) (ids : list string) :
  (forall w, In w rows -> py_in (Kod w) ids = false) ->
  forall acc, Seller.prices_loop rows ids acc = Ok (acc, ids).
Proof.
  induction rows as [|w rows IH]; intros H acc; simpl; [reflexivity|].
  rewrite (H w) by now left. apply IH. intros v Hv. apply H. now right.
Qed.

(** After [create_stocks] on a listing of distinct identifiers, no row
    has its code in [offer_ids] any more: [create_prices] on the same
    list object finds nothing. *)
Lemma seller_no_price_after_stocks (rows : list watch) (ids : list string)
    (stocks : list Seller.Stock) (ids' : list string) :
  NoDup ids ->
  Seller.create_stocks rows ids = Ok (stocks, ids') ->
  Seller.create_prices rows ids' = Ok ([], ids').
Proof.
  intros Hids H.
  apply seller_create_stocks_leaves in H.
  rewrite remaining_unmatched in H by assumption. subst ids'.
  apply seller_prices_loop_none_known.
  intros w Hw. now apply row_code_not_unmatched.
Qed.

(** C2 fails on the code.  The marketplace lists "A", the feed has one
    row for "A" with the price "100.50": the run of [main] pushes the
    stock of "A" and builds the empty price list, so it pushes no price,
    where the price list of the specification holds "A" with "100". *)
Theorem seller_main_builds_no_price :
  Seller.main_try (seller_serving ["A"] [mk_watch "A" "5" "100.50"]) "client" "token"
    = ([ Seller.GetOfferIds "client" "token";
         Seller.DownloadStock;
         Seller.UpdateStocks [Seller.mk_Stock "A" 5] "client" "token" ],
       Ok ([Seller.mk_Stock "A" 5], [])) /\
  Spec.price_updates [mk_watch "A" "5" "100.50"] ["A"] = [("A", "100")].
Proof.
  split; reflexivity.
Qed.

(** ** The size of the batches *)

(** C7 fails on the code.  With 901 rows, all listed, the helper
    [upload_prices] of seller.py pushes one batch of 901 prices: its
    chunk size is 1000, where [main] cuts the prices by 900. *)
Theorem seller_upload_prices_batch_of_901 :
  seller_price_batches
    (fst (Seller.upload_prices
            (seller_serving (map Kod (numbered_feed 901)) (numbered_feed 901))
            (numbered_feed 901) "client" "token"))
    = [901%Z] /\
  (900 < 901)%Z.
Proof.
  split; [vm_compute; reflexivity | reflexivity].
Qed.

(** ** Errors in the orchestrators *)

(** C8 fails on the code, in [main] of market.py.  When the download of
    the feed raises, nothing catches it: [main] ends with the exception
    and prints nothing.  When the listing of the campaign FBS times out,
    the timeout line is printed and the campaign DBS is not attempted:
    no call is made for it. *)
Theorem market_main_error_paths :
  Market.main (market_site_down ["A"] (fun _ => sample_clock))
              "token" "FBS" "DBS" "w1" "w2"
    = ([Market.DownloadStock], Raise (ConnectionError "timeworld.ru")) /\
  Market.main (market_fbs_times_out ["A"] sample_feed (fun _ => sample_clock))
              "token" "FBS" "DBS" "w1" "w2"
    = ([ Market.DownloadStock;
         Market.GetOfferIds "FBS" "token";
         Market.Print TimeoutLine ],
       Ok tt).
Proof.
  split; reflexivity.
Qed.

(** ** Two runs on the same feed and the same listing *)

Lemma io_bind_ext (E A B : Type) (c : io E A) (k1 k2 : A -> io E B) :
  (forall a, k1 a = k2 a) -> io_bind c k1 = io_bind c k2.
Proof.
  intros H. destruct c as [t [a|e]]; simpl; [now rewrite H | reflexivity].
Qed.

Lemma for_each_ext (E A : Type) (l : list A) (f g : A -> io E unit) :
  (forall x, f x = g x) -> for_each l f = for_each l g.
Proof.
  intros H. induction l as [|x l IH]; simpl; [reflexivity|].
  rewrite H. apply io_bind_ext. intros _. exact IH.
Qed.

Lemma seller_main_try_same (r1 r2 : Seller.Remote) (c t : string) :
  seller_same_outside r1 r2 ->
  Seller.main_try r1 c t = Seller.main_try r2 c t.
Proof.
  intros (Hg & Hd & Hs & Hp). unfold Seller.main_try.
  rewrite Hg, Hd.
  apply io_bind_ext; intros ids.
  apply io_bind_ext; intros rows.
  apply io_bind_ext; intros [stocks ids'].
  apply io_bind_ext; intros batches.
  rewrite (for_each_ext _ _ batches _
             (fun b => call (Seller.UpdateStocks b c t) (Seller.update_stocks r2 b c t)))
    by (intros b; now rewrite Hs).
  apply io_bind_ext; intros _.
  apply io_bind_ext; intros [prices ids''].
  apply io_bind_ext; intros batches'.
  rewrite (for_each_ext _ _ batches' _
             (fun b => call (Seller.UpdatePrice b c t) (Seller.update_price r2 b c t)))
    by (intros b; now rewrite Hp).
  reflexivity.
Qed.

Lemma market_create_stocks_same_second (d1 d2 : datetime) (rows : list watch)
    (ids : list string) (wh : string) :
  same_second d1 d2 ->
  Market.create_stocks d1 rows ids wh = Market.create_stocks d2 rows ids wh.
Proof.
  unfold same_second, Market.create_stocks. now intros ->.
Qed.

Lemma market_campaign_same (r1 r2 : Market.Remote) (k : nat)
    (rows : list watch) (c t wh : string) :
  market_same_outside r1 r2 ->
  same_second (Market.utcnow r1 k) (Market.utcnow r2 k) ->
  Market.campaign r1 k rows c t wh = Market.campaign r2 k rows c t wh.
Proof.
  intros (Hg & Hd & Hs & Hp) Hk. unfold Market.campaign.
  rewrite Hg.
  apply io_bind_ext; intros ids.
  rewrite (market_create_stocks_same_second _ _ rows ids wh Hk).
  apply io_bind_ext; intros [stocks ids'].
  apply io_bind_ext; intros batches.
  rewrite (for_each_ext _ _ batches _
             (fun b => call (Market.UpdateStocks b c t) (Market.update_stocks r2 b c t)))
    by (intros b; now rewrite Hs).
  reflexivity.
Qed.

(** C9, as amended.  Two runs that meet the same feed, the same listings
    and the same answers push the same batches, byte for byte, in
    seller.py; in market.py they do when each reading of the clock in
    the second run falls in the same second as in the first, since every
    stock entry carries the time of the run to the second. *)
Theorem sync_twice_same_batches (s1 s2 : Seller.Remote) (m1 m2 : Market.Remote)
    (client_id seller_token market_token fbs dbs w_fbs w_dbs : string) :
  seller_same_outside s1 s2 ->
  market_same_outside m1 m2 ->
  (forall k, same_second (Market.utcnow m1 k) (Market.utcnow m2 k)) ->
  Seller.main s1 client_id seller_token = Seller.main s2 client_id seller_token /\
  Market.main m1 market_token fbs dbs w_fbs w_dbs
    = Market.main m2 market_token fbs dbs w_fbs w_dbs.
Proof.
  intros Hs Hm Hk. split.
  - unfold Seller.main. now rewrite (seller_main_try_same s1 s2).
  - unfold Market.main, Market.main_try.
    destruct Hm as (Hg & Hd & Hm). rewrite Hd.
    apply io_bind_ext; intros rows.
    now rewrite !(market_campaign_same m1 m2) by (repeat split; auto; apply Hm).
Qed.

Lemma sync_twice_same_batches_witness :
  seller_same_outside (seller_serving sample_listing sample_feed)
                      (seller_serving sample_listing sample_feed) /\
  market_same_outside
    (market_serving sample_listing sample_feed (fun _ => sample_clock))
    (market_serving sample_listing sample_feed
       (fun _ => replace_microsecond sample_clock 7)) /\
  (forall k : nat, same_second sample_clock (replace_microsecond sample_clock 7)) /\
  Seller.main (seller_serving sample_listing sample_feed) "client" "token"
  = Seller.main (seller_serving sample_listing sample_feed) "client" "token" /\
  Market.main (market_serving sample_listing sample_feed (fun _ => sample_clock))
              "token" "FBS" "DBS" "w1" "w2"
  = Market.main (market_serving sample_listing sample_feed
                   (fun _ => replace_microsecond sample_clock 7))
                "token" "FBS" "DBS" "w1" "w2".
Proof.
  assert (Hs : seller_same_outside (seller_serving sample_listing sample_feed)
                                   (seller_serving sample_listing sample_feed))
    by (repeat split).
  assert (Hm : market_same_outside
                 (market_serving sample_listing sample_feed (fun _ => sample_clock))
                 (market_serving sample_listing sample_feed
                    (fun _ => replace_microsecond sample_clock 7)))
    by (repeat split).
  assert (Hk : forall k : nat,
             same_second sample_clock (replace_microsecond sample_clock 7))
    by (intros k; reflexivity).
  split; [exact Hs|]. split; [exact Hm|]. split; [exact Hk|].
  exact (sync_twice_same_batches _ _ _ _
           "client" "token" "token" "FBS" "DBS" "w1" "w2" Hs Hm Hk).
Defined.

(** The claim of C9 fails for market.py: the same feed, the same listing
    and the same answers, and a clock one second later in the second
    run; the two runs push different batches. *)
Lemma market_batches_differ_with_the_clock :
  exists t1 t2,
    market_same_outside
      (market_serving ["A"] [mk_watch "A" "5" "100.50"]
         (fun _ => mk_datetime 2022 12 29 18 2 1 0))
      (market_serving ["A"] [mk_watch "A" "5" "100.50"]
         (fun _ => mk_datetime 2022 12 29 18 2 2 0)) /\
    Market.main (market_serving ["A"] [mk_watch "A" "5" "100.50"]
                   (fun _ => mk_datetime 2022 12 29 18 2 1 0))
                "token" "FBS" "DBS" "w1" "w2" = (t1, Ok tt) /\
    Market.main (market_serving ["A"] [mk_watch "A" "5" "100.50"]
                   (fun _ => mk_datetime 2022 12 29 18 2 2 0))
                "token" "FBS" "DBS" "w1" "w2" = (t2, Ok tt) /\
    t1 <> t2.
Proof.
  eexists. eexists.
  split; [repeat split|].
  split; [reflexivity|].
  split; [reflexivity|].
  vm_compute. discriminate.
Qed.

(** ** Every path: what is pushed, what is caught *)

Section Traces.
Context {E : Type} (P : E -> Prop).

Lemma trace_bind (A B : Type) (c : io E A) (k : A -> io E B) :
  Forall P (fst c) ->
  (forall a, snd c = Ok a -> Forall P (fst (k a))) ->
  Forall P (fst (io_bind c k)).
Proof.
  destruct c as [t [a|e]]; simpl; intros Ht Hk; [|assumption].
  specialize (Hk a eq_refl). destruct (k a) as [t' r]. simpl in *.
  apply Forall_app. now split.
Qed.

Lemma trace_for_each (A : Type) (l : list A) (body : A -> io E unit) :
  (forall x, In x l -> Forall P (fst (body x))) ->
  Forall P (fst (for_each l body)).
Proof.
  induction l as [|x l IH]; simpl; intros H; [constructor|].
  apply trace_bind.
  - apply H. now left.
  - intros _ _. apply IH. intros y Hy. apply H. now right.
Qed.

Lemma trace_try_except (A : Type) (body : io E A) (handler : exn -> io E A) :
  Forall P (fst body) ->
  (forall e, Forall P (fst (handler e))) ->
  Forall P (fst (try_except body handler)).
Proof.
  destruct body as [t [a|e]]; simpl; intros Ht Hh; [assumption|].
  specialize (Hh e). destruct (handler e) as [t' r]. simpl in *.
  apply Forall_app. now split.
Qed.

Lemma trace_call (A : Type) (ev : E) (answer : result A) :
  P ev -> Forall P (fst (call ev answer)).
Proof. intros H. simpl. now repeat constructor. Qed.

Lemma trace_pure (A : Type) (r : result A) : Forall P (fst (@pure E A r)).
Proof. constructor. Qed.

End Traces.

Lemma seller_report_prints (e : exn) :
  Seller.report e = ([Seller.Print (line_for e)], Ok tt).
Proof. now destruct e. Qed.

Lemma market_report_prints (e : exn) :
  Market.report e = ([Market.Print (line_for e)], Ok tt).
Proof. now destruct e. Qed.

(** The pushes of a loop over the chunks of [divide] are within the
    chunk size. *)
Lemma seller_stock_pushes_within (r : Seller.Remote) (c t : string)
    (stocks : list Seller.Stock) (n p : Z) (batches : list (list Seller.Stock)) :
  (0 < n)%Z ->
  snd (@pure Seller.event _ (Seller.divide stocks n)) = Ok batches ->
  Forall (seller_batch_within n p)
    (fst (for_each batches (fun b =>
            call (Seller.UpdateStocks b c t) (Seller.update_stocks r b c t)))).
Proof.
  simpl. intros Hn Hd. apply trace_for_each. intros b Hb.
  apply trace_call. simpl.
  pose proof (divide_bounded stocks n batches Hn Hd) as Hall.
  rewrite Forall_forall in Hall. now apply Hall.
Qed.

Lemma seller_price_pushes_within (r : Seller.Remote) (c t : string)
    (prices : list Seller.Price) (s n : Z) (batches : list (list Seller.Price)) :
  (0 < n)%Z ->
  snd (@pure Seller.event _ (Seller.divide prices n)) = Ok batches ->
  Forall (seller_batch_within s n)
    (fst (for_each batches (fun b =>
            call (Seller.UpdatePrice b c t) (Seller.update_price r b c t)))).
Proof.
  simpl. intros Hn Hd. apply trace_for_each. intros b Hb.
  apply trace_call. simpl.
  pose proof (divide_bounded prices n batches Hn Hd) as Hall.
  rewrite Forall_forall in Hall. now apply Hall.
Qed.

Lemma market_stock_pushes_within (r : Market.Remote) (c t : string)
    (stocks : list Market.Sku) (n p : Z) (batches : list (list Market.Sku)) :
  (0 < n)%Z ->
  snd (@pure Market.event _ (Seller.divide stocks n)) = Ok batches ->
  Forall (market_batch_within n p)
    (fst (for_each batches (fun b =>
            call (Market.UpdateStocks b c t) (Market.update_stocks r b c t)))).
Proof.
  simpl. intros Hn Hd. apply trace_for_each. intros b Hb.
  apply trace_call. simpl.
  pose proof (divide_bounded stocks n batches Hn Hd) as Hall.
  rewrite Forall_forall in Hall. now apply Hall.
Qed.

Lemma market_price_pushes_within (r : Market.Remote) (c t : string)
    (prices : list Market.Offer) (s n : Z) (batches : list (list Market.Offer)) :
  (0 < n)%Z ->
  snd (@pure Market.event _ (Seller.divide prices n)) = Ok batches ->
  Forall (market_batch_within s n)
    (fst (for_each batches (fun b =>
            call (Market.UpdatePrice b c t) (Market.update_price r b c t)))).
Proof.
  simpl. intros Hn Hd. apply trace_for_each. intros b Hb.
  apply trace_call. simpl.
  pose proof (divide_bounded prices n batches Hn Hd) as Hall.
  rewrite Forall_forall in Hall. now apply Hall.
Qed.

Ltac walk_trace :=
  repeat first
    [ apply trace_call; exact I
    | apply trace_pure
    | (apply trace_bind; [|intros ? ?])
    | match goal with |- context [let (_, _) := ?x in _] => destruct x end
    | (eapply seller_stock_pushes_within; [lia | eassumption])
    | (eapply seller_price_pushes_within; [lia | eassumption])
    | (eapply market_stock_pushes_within; [lia | eassumption])
    | (eapply market_price_pushes_within; [lia | eassumption])
    | (simpl; constructor) ].

(** The batch sizes of every upload path, as the code has them: in
    seller.py 100 stocks per push in [main] and [upload_stocks], 900
    prices per push in [main] and 1000 in [upload_prices]; in market.py
    2000 stocks per push in [main] and [upload_stocks], 500 prices per
    push in [upload_prices]. *)
Theorem batch_sizes_of_every_path (rs : Seller.Remote) (rm : Market.Remote)
    (rows : list watch) (c t fbs dbs w w_fbs w_dbs : string) :
  Forall (seller_batch_within 100 900) (fst (Seller.main rs c t)) /\
  Forall (seller_batch_within 100 1000) (fst (Seller.upload_stocks rs rows c t)) /\
  Forall (seller_batch_within 100 1000) (fst (Seller.upload_prices rs rows c t)) /\
  Forall (market_batch_within 2000 500) (fst (Market.main rm t fbs dbs w_fbs w_dbs)) /\
  Forall (market_batch_within 2000 500) (fst (Market.upload_stocks rm rows c t w)) /\
  Forall (market_batch_within 2000 500) (fst (Market.upload_prices rm rows c t)).
Proof.
  repeat split.
  - unfold Seller.main. apply trace_try_except.
    + unfold Seller.main_try. walk_trace.
    + intros e. rewrite seller_report_prints. repeat constructor.
  - unfold Seller.upload_stocks. walk_trace.
  - unfold Seller.upload_prices. walk_trace.
  - unfold Market.main. apply trace_bind; [apply trace_call; exact I|].
    intros feed _. apply trace_try_except.
    + unfold Market.main_try, Market.campaign, not_awaited. walk_trace.
    + intros e. rewrite market_report_prints. repeat constructor.
  - unfold Market.upload_stocks. walk_trace.
  - unfold Market.upload_prices. walk_trace.
Qed.

(** [main] of market.py pushes no price at all: [upload_prices] is
    called and never awaited. *)
Lemma market_main_pushes_no_price (rm : Market.Remote)
    (t fbs dbs w_fbs w_dbs : string) :
  market_price_batches (fst (Market.main rm t fbs dbs w_fbs w_dbs)) = [].
Proof.
  assert (H : Forall (market_batch_within 2000 (-1))
                (fst (Market.main rm t fbs dbs w_fbs w_dbs))).
  { unfold Market.main. apply trace_bind; [apply trace_call; exact I|].
    intros feed _. apply trace_try_except.
    - unfold Market.main_try, Market.campaign, not_awaited. walk_trace.
    - intros e. rewrite market_report_prints. repeat constructor. }
  induction H as [|ev tr Hev _ IH]; [reflexivity|].
  unfold market_price_batches in *. simpl. rewrite IH.
  destruct ev; try reflexivity. simpl in Hev. unfold len in Hev. lia.
Qed.

(** [main] of seller.py lets no exception out: whatever a step raises,
    the line for it is printed last and [main] returns. *)
Theorem seller_main_catches_everything (r : Seller.Remote) (c t : string) :
  snd (Seller.main r c t) = Ok tt /\
  forall e, snd (Seller.main_try r c t) = Raise e ->
    fst (Seller.main r c t)
    = fst (Seller.main_try r c t) ++ [Seller.Print (line_for e)].
Proof.
  unfold Seller.main.
  destruct (Seller.main_try r c t) as [tr [[stocks prices]|e]]; simpl.
  - rewrite app_nil_r. split; [reflexivity | discriminate].
  - rewrite seller_report_prints. split; [reflexivity|].
    intros e' H. now injection H as <-.
Qed.

(** [main] of market.py lets out the exceptions of the download, and
    only those. *)
Lemma market_main_lets_download_errors_out (r : Market.Remote)
    (t fbs dbs w_fbs w_dbs : string) :
  snd (Market.main r t fbs dbs w_fbs w_dbs) =
  match Market.download_stock r with
  | Ok _ => Ok tt
  | Raise e => Raise e
  end.
Proof.
  unfold Market.main, call, io_bind.
  destruct (Market.download_stock r) as [feed|e]; [|reflexivity].
  unfold try_except.
  destruct (Market.main_try r feed t fbs dbs w_fbs w_dbs) as [tr [[]|e]];
    [reflexivity|].
  now rewrite market_report_prints.
Qed.

(** The pushes of the stocks hold no price. *)
Lemma seller_stock_pushes_no_price (r : Seller.Remote) (c t : string)
    (batches : list (list Seller.Stock)) :
  seller_price_batches
    (fst (for_each batches (fun b =>
            call (Seller.UpdateStocks b c t) (Seller.update_stocks r b c t))))
  = [].
Proof.
  induction batches as [|b batches IH]; simpl; [reflexivity|].
  unfold call, io_bind.
  destruct (Seller.update_stocks r b c t) as [[]|e]; [|reflexivity].
  destruct (for_each batches _) as [tr res]. simpl in *. exact IH.
Qed.

(** In a run of [main] of seller.py that reaches the end of its [try]
    block, on a listing of distinct identifiers, the price list is empty
    and no price is pushed, whatever the feed. *)
Theorem seller_main_price_list_empty (r : Seller.Remote) (c t : string)
    (trace : list Seller.event) (stocks : list Seller.Stock)
    (prices : list Seller.Price) :
  (forall ids, Seller.get_offer_ids r c t = Ok ids -> NoDup ids) ->
  Seller.main_try r c t = (trace, Ok (stocks, prices)) ->
  prices = [] /\ seller_price_batches trace = [].
Proof.
  intros Hdistinct.
  unfold Seller.main_try, io_bind, call, pure.
  destruct (Seller.get_offer_ids r c t) as [ids|e] eqn:Hids; [|discriminate].
  specialize (Hdistinct ids eq_refl).
  destruct (Seller.download_stock r) as [rows|e]; [|discriminate].
  destruct (Seller.create_stocks rows ids) as [[st ids']|e] eqn:Hcs; [|discriminate].
  destruct (Seller.divide st 100) as [batches|e]; [|discriminate].
  pose proof (seller_stock_pushes_no_price r c t batches) as Hpush.
  destruct (for_each batches _) as [pushes [[]|e]]; [|discriminate].
  rewrite (seller_no_price_after_stocks rows ids st ids' Hdistinct Hcs).
  simpl in *. intros H. injection H as <- <- <-.
  split; [reflexivity|].
  rewrite !app_nil_r. exact Hpush.
Qed.

Lemma seller_main_price_list_empty_witness :
  (forall ids,
     Seller.get_offer_ids (seller_serving sample_listing sample_feed)
       "client" "token" = Ok ids -> NoDup ids) /\
  snd (Seller.main_try (seller_serving sample_listing sample_feed) "client" "token")
    = Ok ([Seller.mk_Stock "A" 100; Seller.mk_Stock "D" 0; Seller.mk_Stock "B" 0], []) /\
  ([] : list Seller.Price) = [] /\
  seller_price_batches
    (fst (Seller.main_try (seller_serving sample_listing sample_feed) "client" "token"))
    = [].
Proof.
  assert (H : forall ids,
             Seller.get_offer_ids (seller_serving sample_listing sample_feed)
               "client" "token" = Ok ids -> NoDup ids).
  { intros ids E. injection E as <-.
    repeat constructor; simpl; intuition discriminate. }
  split; [exact H|]. split; [reflexivity|].
  exact (seller_main_price_list_empty
           (seller_serving sample_listing sample_feed) "client" "token"
           _ _ _ H eq_refl).
Defined.

(** * More of the code *)

(** ** The chunker: number of chunks, sizes out of range *)

Lemma range_length_ceiling (L n : Z) :
  (0 <= L)%Z -> (0 < n)%Z -> range_length 0 L n = ((L + n - 1) / n)%Z.
Proof.
  intros HL Hn. unfold range_length.
  destruct (Z.ltb_spec 0 n); [|lia].
  destruct (Z.ltb_spec 0 L).
  - replace (L + n - 1)%Z with ((L - 0 - 1) + 1 * n)%Z by lia.
    rewrite Z.div_add by lia. reflexivity.
  - replace L with 0%Z by lia. simpl. symmetry. apply Z.div_small. lia.
Qed.

Lemma range_length_last_start (L n : Z) :
  (0 <= L)%Z -> (0 < n)%Z ->
  forall k, (0 <= k < range_length 0 L n)%Z -> (k * n < L)%Z.
Proof.
  intros HL Hn k Hk. unfold range_length in Hk.
  destruct (Z.ltb_spec 0 n); [|lia].
  destruct (Z.ltb_spec 0 L); [|lia].
  replace (L - 0 - 1)%Z with (L - 1)%Z in Hk by lia.
  pose proof (Z.mul_div_le (L - 1) n Hn). nia.
Qed.

Lemma divide_concat (A : Type) (l : list A) (n : Z) (chunks : list (list A)) :
  (0 < n)%Z -> Seller.divide l n = Ok chunks -> concat chunks = l.
Proof.
  intros Hn H. rewrite divide_pieces in H by assumption. injection H as <-.
  apply pieces_concat.
  pose proof (range_length_bounds (len l) n ltac:(unfold len; lia) Hn) as (H0 & Hup & _).
  unfold len in *. nia.
Qed.

(** For a size n > 0, [divide] cuts a list of L elements in the ceiling
    of L / n chunks, none of them empty: the empty list gives no chunk
    at all. *)
Theorem divide_chunk_count (A : Type) (l : list A) (n : Z) :
  (0 < n)%Z ->
  exists chunks,
    Seller.divide l n = Ok chunks /\
    len chunks = ((len l + n - 1) / n)%Z /\
    Forall (fun ch => ch <> []) chunks.
Proof.
  intros Hn. eexists. split; [now apply divide_pieces|].
  assert (HL : (0 <= len l)%Z) by (unfold len; lia).
  pose proof (range_length_bounds (len l) n HL Hn) as (Hc0 & _ & _).
  split.
  - unfold len at 1, pieces. rewrite length_map, length_seq.
    rewrite Z2Nat.id by assumption. now apply range_length_ceiling.
  - unfold pieces. apply Forall_forall. intros ch Hch.
    apply in_map_iff in Hch as (k & <- & Hk). apply in_seq in Hk.
    pose proof (range_length_last_start (len l) n HL Hn (Z.of_nat k) ltac:(lia)) as Hlt.
    intros E. apply (f_equal (@length A)) in E.
    rewrite length_firstn, length_skipn in E. simpl in E.
    unfold len in Hlt. nia.
Qed.

Lemma divide_chunk_count_witness :
  (0 < 3)%Z /\
  exists chunks,
    Seller.divide [1; 2; 3; 4; 5; 6; 7] 3 = Ok chunks /\
    len chunks = 3%Z /\
    Forall (fun ch => ch <> []) chunks.
Proof.
  split; [lia|]. exact (divide_chunk_count nat [1; 2; 3; 4; 5; 6; 7] 3 eq_refl).
Defined.

(** For a negative size, [divide] raises nothing and gives no chunk,
    whatever the list: its elements are in no chunk. *)
Theorem divide_negative_size (A : Type) (l : list A) (n : Z) :
  (n < 0)%Z -> Seller.divide l n = Ok [].
Proof.
  intros Hn. unfold Seller.divide, range, range_length.
  destruct (Z.eqb_spec n 0); [lia|].
  destruct (Z.ltb_spec 0 n); [lia|].
  destruct (Z.ltb_spec (len l) 0); [unfold len in *; lia|].
  reflexivity.
Qed.

Lemma divide_negative_size_witness :
  (-2 < 0)%Z /\ Seller.divide [1; 2; 3] (-2) = Ok [].
Proof.
  split; [lia|]. exact (divide_negative_size nat [1; 2; 3] (-2) eq_refl).
Defined.

(** ** The price lists *)

Lemma seller_prices_loop_listed (rows : list watch) (ids : list string) :
  forall acc,
    Seller.prices_loop rows ids acc
    = Ok (acc ++ map seller_price_of (listed ids rows), ids).
Proof.
  unfold listed.
  induction rows as [|w rows IH]; intros acc; simpl.
  - now rewrite app_nil_r.
  - destruct (py_in (Kod w) ids); [|apply IH].
    rewrite price_conversion_normalizes. simpl. rewrite IH.
    now rewrite <- app_assoc.
Qed.

(** [create_prices] of seller.py never raises: it returns one price
    update for each row whose code is in the listing, in the order of
    the feed, with the normalized price; a code that two rows carry is
    there twice. *)
Theorem seller_create_prices_per_listed_row (rows : list watch) (ids : list string) :
  Seller.create_prices rows ids = Ok (map seller_price_of (listed ids rows), ids).
Proof.
  unfold Seller.create_prices. now rewrite seller_prices_loop_listed.
Qed.


Lemma only_digits_chars (s : string) :
  Forall (fun c => in_0_9 c = true)
         (list_ascii_of_string (Spec.only Spec.is_ascii_digit s)).
Proof.
  induction s as [|c s IH]; simpl; [constructor|].
  destruct (Spec.is_ascii_digit c) eqn:Hc; [|assumption].
  simpl. constructor; [now rewrite in_0_9_is_ascii_digit | assumption].
Qed.










(** ** The price normalizer, once more *)

Lemma normalize_price_cons_digit (c : ascii) (s : string) :
  in_0_9 c = true ->
  Spec.normalize_price (String c s) = String c (Spec.normalize_price s).
Proof.
  intros Hc. unfold Spec.normalize_price. rewrite before_first_period_cons.
  replace (Ascii.eqb c ".") with false
    by (destruct c as [[] [] [] [] [] [] [] []]; solve [discriminate Hc | reflexivity]).
  simpl. now rewrite <- in_0_9_is_ascii_digit, Hc.
Qed.

Lemma normalize_price_of_digits (s : string) :
  Forall (fun c => in_0_9 c = true) (list_ascii_of_string s) ->
  Spec.normalize_price s = s.
Proof.
  induction s as [|c s IH]; intros H; [reflexivity|].
  simpl in H. inversion H as [|? ? Hc Hs]; subst.
  rewrite normalize_price_cons_digit by assumption. now rewrite IH.
Qed.

Lemma only_length (keep : ascii -> bool) (s : string) :
  String.length (Spec.only keep s) <= String.length s.
Proof.
  induction s as [|c s IH]; simpl; [lia|]. destruct (keep c); simpl; lia.
Qed.

Lemma before_first_period_length (s : string) :
  String.length (Spec.before_first_period s) <= String.length s.
Proof.
  induction s as [|c s IH]; [reflexivity|].
  rewrite before_first_period_cons. destruct (Ascii.eqb c "."); simpl; lia.
Qed.

Lemma before_first_period_tail (s tail : string) :
  Spec.before_first_period (String.append s (String "." tail))
  = Spec.before_first_period s.
Proof.
  induction s as [|c s IH].
  - simpl. now rewrite before_first_period_cons.
  - change (String.append (String c s) (String "." tail))
      with (String c (String.append s (String "." tail))).
    rewrite !before_first_period_cons, IH. reflexivity.
Qed.

(** [price_conversion] returns a text of ASCII digits, not longer than
    the text it was given; it leaves such a text as it is, so converting
    twice changes nothing; and nothing written from the first period on
    has any effect on the result. *)
Theorem price_conversion_idempotent (raw : string) :
  exists p,
    Seller.price_conversion raw = Ok p /\
    Forall (fun c => in_0_9 c = true) (list_ascii_of_string p) /\
    String.length p <= String.length raw /\
    Seller.price_conversion p = Ok p /\
    forall tail,
      Seller.price_conversion (String.append raw (String "." tail)) = Ok p.
Proof.
  exists (Spec.normalize_price raw).
  split; [apply price_conversion_normalizes|].
  split; [apply only_digits_chars|].
  split.
  - unfold Spec.normalize_price.
    pose proof (only_length Spec.is_ascii_digit (Spec.before_first_period raw)).
    pose proof (before_first_period_length raw). lia.
  - split.
    + rewrite price_conversion_normalizes. f_equal.
      apply normalize_price_of_digits, only_digits_chars.
    + intros tail. rewrite price_conversion_normalizes.
      unfold Spec.normalize_price. now rewrite before_first_period_tail.
Qed.

(** ** The stock lists, for any listing *)

Lemma without_first_subset (x : string) (l : list string) (y : string) :
  In y (Spec.without_first x l) -> In y l.
Proof.
  induction l as [|z l IH]; [now unfold Spec.without_first|].
  rewrite without_first_cons. destruct (String.eqb x z); simpl; intuition.
Qed.

Lemma taken_listed (ids : list string) (rows : list watch) :
  forall cur,
    (forall x, In x cur -> In x ids) ->
    Spec.taken rows cur = Spec.taken (listed ids rows) cur /\
    Spec.remaining rows cur = Spec.remaining (listed ids rows) cur.
Proof.
  unfold listed.
  induction rows as [|w rows IH]; intros cur Hsub; simpl; [now split|].
  destruct (py_in (Kod w) ids) eqn:Hin; simpl.
  - destruct (py_in (Kod w) cur); [|now apply IH].
    destruct (IH (Spec.without_first (Kod w) cur)) as [-> ->]; [|now split].
    intros x Hx. apply Hsub. eapply without_first_subset; eassumption.
  - replace (py_in (Kod w) cur) with false; [now apply IH|].
    symmetry. apply py_in_false. intros Hc. apply py_in_false in Hin.
    apply Hin. now apply Hsub.
Qed.

(** The rows whose code is not in the listing play no part in
    [create_stocks]: their quantity is not even read, so a quantity that
    is no number does no harm there. *)
Theorem create_stocks_ignores_unlisted_rows (now : datetime) (warehouse_id : string)
    (rows : list watch) (ids : list string) :
  Seller.create_stocks rows ids = Seller.create_stocks (listed ids rows) ids /\
  Market.create_stocks now rows ids warehouse_id
    = Market.create_stocks now (listed ids rows) ids warehouse_id.
Proof.
  assert (E : Seller.create_stocks rows ids
              = Seller.create_stocks (listed ids rows) ids).
  { rewrite !seller_create_stocks_taken.
    now destruct (taken_listed ids rows ids (fun x H => H)) as [<- <-]. }
  split; [exact E|].
  rewrite !market_create_stocks_as_seller. now rewrite E.
Qed.

(** Whatever the listing, also one that holds an identifier twice, the
    identifiers of the list [create_stocks] returns are the identifiers
    of the listing, each as many times as the listing has it: as many
    stock updates as identifiers listed. *)
Theorem create_stocks_keeps_the_listing (now : datetime) (warehouse_id : string)
    (rows : list watch) (ids : list string) (out : list (string * Z)) :
  returned seller_pair (Seller.create_stocks rows ids) = Some out \/
  returned market_pair (Market.create_stocks now rows ids warehouse_id) = Some out ->
  Permutation ids (map fst out) /\ len out = len ids.
Proof.
  rewrite returned_market_seller, returned_seller_taken.
  intros H. assert (H' := match H with or_introl h | or_intror h => h end).
  clear H.
  destruct (Spec.traverse _ (Spec.taken rows ids)) as [matched|] eqn:Hm;
    [|discriminate].
  injection H' as <-.
  assert (P : Permutation ids
                (map fst (matched ++ map (fun i => (i, 0%Z)) (Spec.remaining rows ids)))).
  { rewrite map_app, map_map. simpl. rewrite map_id.
    rewrite (traverse_pairs_fst _ _ Hm). apply taken_remaining_permutation. }
  split; [exact P|].
  apply Permutation_length in P. rewrite length_map in P. unfold len. lia.
Qed.

Lemma create_stocks_keeps_the_listing_witness :
  Permutation ["A"; "A"; "B"] (map fst [("A", 5%Z); ("A", 0%Z); ("B", 0%Z)]) /\
  len [("A", 5%Z); ("A", 0%Z); ("B", 0%Z)] = len ["A"; "A"; "B"].
Proof.
  apply (create_stocks_keeps_the_listing sample_clock "w"
           [mk_watch "A" "5" "1.00"] ["A"; "A"; "B"]).
  left. reflexivity.
Defined.

(** ** The entries of market.py *)

Lemma append_length (a b : string) :
  String.length (String.append a b) = String.length a + String.length b.
Proof.
  induction a as [|c a IH]; simpl; [reflexivity | now rewrite IH].
Qed.

Lemma zero_padded_length (width n : nat) :
  String.length (zero_padded width n) = width.
Proof.
  revert n. induction width as [|w IH]; intros n; [reflexivity|].
  cbn [zero_padded]. rewrite append_length, IH. simpl. lia.
Qed.

Lemma stamp_length (utcnow : datetime) : String.length (stamp utcnow) = 20.
Proof.
  unfold stamp, isoformat. cbn [microsecond replace_microsecond Nat.eqb String.concat].
  repeat rewrite append_length. repeat rewrite zero_padded_length. reflexivity.
Qed.

(** Every entry [create_stocks] of market.py returns has the warehouse
    it was given and one item, of type "FIT", with the same time stamp
    in all entries: the reading of the clock in 20 characters, down to
    the second only. *)
Theorem market_entries_well_formed (utcnow : datetime) (rows : list watch)
    (ids : list string) (warehouse_id : string)
    (stocks : list Market.Sku) (ids' : list string) :
  Market.create_stocks utcnow rows ids warehouse_id = Ok (stocks, ids') ->
  Forall (fun s => Market.warehouseId s = warehouse_id /\
                   exists q, Market.items s = [Market.mk_Item q "FIT" (stamp utcnow)])
         stocks /\
  String.length (stamp utcnow) = 20 /\
  forall us, stamp (replace_microsecond utcnow us) = stamp utcnow.
Proof.
  rewrite market_create_stocks_as_seller.
  destruct (Seller.create_stocks rows ids) as [[st i]|e]; [|discriminate].
  intros H. injection H as <- <-.
  split; [|split; [apply stamp_length | reflexivity]].
  apply Forall_forall. intros s Hs.
  apply in_map_iff in Hs as (x & <- & _).
  split; [reflexivity|]. now exists (Seller.stock x).
Qed.

Lemma market_entries_well_formed_witness :
  Forall (fun s => Market.warehouseId s = "w" /\
                   exists q, Market.items s = [Market.mk_Item q "FIT" "2022-12-29T18:02:01Z"])
         [Market.entry "A" "w" 100 "2022-12-29T18:02:01Z";
          Market.entry "D" "w" 0 "2022-12-29T18:02:01Z";
          Market.entry "B" "w" 0 "2022-12-29T18:02:01Z"] /\
  String.length (stamp sample_clock) = 20 /\
  forall us, stamp (replace_microsecond sample_clock us) = stamp sample_clock.
Proof.
  exact (market_entries_well_formed sample_clock sample_feed sample_listing "w"
           _ ["B"] eq_refl).
Defined.

(** ** What a run pushes *)

Lemma for_each_call_all (E A : Type) (ev : A -> E) (answer : A -> result unit)
    (l : list A) :
  snd (for_each l (fun b => call (ev b) (answer b))) = Ok tt ->
  fst (for_each l (fun b => call (ev b) (answer b))) = map ev l.
Proof.
  induction l as [|b l IH]; simpl; [reflexivity|].
  unfold io_bind.
  change (call (ev b) (answer b)) with ([ev b], answer b).
  destruct (answer b) as [[]|e]; [|discriminate].
  destruct (for_each l _) as [tr res]. simpl in *.
  intros H. now rewrite IH.
Qed.

(** Whatever the outcome, the calls made are those for the first chunks,
    in their order. *)
Lemma for_each_call_prefix (E A : Type) (ev : A -> E) (answer : A -> result unit)
    (l : list A) :
  exists k,
    fst (for_each l (fun b => call (ev b) (answer b))) = map ev (firstn k l).
Proof.
  induction l as [|b l [k IH]]; simpl.
  - now exists 0.
  - unfold io_bind.
    change (call (ev b) (answer b)) with ([ev b], answer b).
    destruct (answer b) as [[]|e].
    + destruct (for_each l _) as [tr res]. simpl in *.
      exists (S k). simpl. now rewrite IH.
    + now exists 1.
Qed.

Lemma seller_stocks_pushed_stocks (c t : string) (l : list (list Seller.Stock)) :
  seller_stocks_pushed (map (fun b => Seller.UpdateStocks b c t) l) = l /\
  seller_prices_pushed (map (fun b => Seller.UpdateStocks b c t) l) = [].
Proof.
  induction l as [|b l [IH1 IH2]]; [now split|].
  unfold seller_stocks_pushed, seller_prices_pushed in *. simpl.
  now rewrite IH1, IH2.
Qed.

Lemma seller_prices_pushed_prices (c t : string) (l : list (list Seller.Price)) :
  seller_prices_pushed (map (fun b => Seller.UpdatePrice b c t) l) = l /\
  seller_stocks_pushed (map (fun b => Seller.UpdatePrice b c t) l) = [].
Proof.
  induction l as [|b l [IH1 IH2]]; [now split|].
  unfold seller_stocks_pushed, seller_prices_pushed in *. simpl.
  now rewrite IH1, IH2.
Qed.

Lemma market_stocks_pushed_stocks (c t : string) (l : list (list Market.Sku)) :
  market_stocks_pushed (map (fun b => Market.UpdateStocks b c t) l) = l /\
  market_prices_pushed (map (fun b => Market.UpdateStocks b c t) l) = [].
Proof.
  induction l as [|b l [IH1 IH2]]; [now split|].
  unfold market_stocks_pushed, market_prices_pushed in *. simpl.
  now rewrite IH1, IH2.
Qed.

Lemma market_prices_pushed_prices (c t : string) (l : list (list Market.Offer)) :
  market_prices_pushed (map (fun b => Market.UpdatePrice b c t) l) = l /\
  market_stocks_pushed (map (fun b => Market.UpdatePrice b c t) l) = [].
Proof.
  induction l as [|b l [IH1 IH2]]; [now split|].
  unfold market_stocks_pushed, market_prices_pushed in *. simpl.
  now rewrite IH1, IH2.
Qed.

Lemma fst_io_bind (E A B : Type) (c : io E A) (k : A -> io E B) :
  fst (io_bind c k) =
  fst c ++ match snd c with
           | Ok a => fst (k a)
           | Raise _ => []
           end.
Proof.
  destruct c as [tr [a|e]]; simpl; [|now rewrite app_nil_r].
  now destruct (k a).
Qed.

Lemma snd_io_bind (E A B : Type) (c : io E A) (k : A -> io E B) :
  snd (io_bind c k) =
  match snd c with
  | Ok a => snd (k a)
  | Raise e => Raise e
  end.
Proof.
  destruct c as [tr [a|e]]; simpl; [|reflexivity]. now destruct (k a).
Qed.

(** A run that reaches the end has pushed every update it built, once
    and in the order of the list: the batches pushed, put end to end,
    are the list; and a path for the stocks pushes no price.  This holds
    for the [try] block of [main] of seller.py, for a campaign of [main]
    of market.py, and for the four helpers. *)
Theorem successful_run_pushes_everything (rs : Seller.Remote) (rm : Market.Remote)
    (rows : list watch) (c t w : string) (reading : nat) :
  (forall trace stocks prices,
     Seller.main_try rs c t = (trace, Ok (stocks, prices)) ->
     concat (seller_stocks_pushed trace) = stocks /\
     concat (seller_prices_pushed trace) = prices) /\
  (forall trace not_empty stocks,
     Seller.upload_stocks rs rows c t = (trace, Ok (not_empty, stocks)) ->
     concat (seller_stocks_pushed trace) = stocks /\
     seller_prices_pushed trace = []) /\
  (forall trace prices,
     Seller.upload_prices rs rows c t = (trace, Ok prices) ->
     concat (seller_prices_pushed trace) = prices /\
     seller_stocks_pushed trace = []) /\
  (forall trace stocks,
     Market.campaign rm reading rows c t w = (trace, Ok stocks) ->
     concat (market_stocks_pushed trace) = stocks /\
     market_prices_pushed trace = []) /\
  (forall trace not_empty stocks,
     Market.upload_stocks rm rows c t w = (trace, Ok (not_empty, stocks)) ->
     concat (market_stocks_pushed trace) = stocks /\
     market_prices_pushed trace = []) /\
  (forall trace prices,
     Market.upload_prices rm rows c t = (trace, Ok prices) ->
     concat (market_prices_pushed trace) = prices /\
     market_stocks_pushed trace = []).
Proof.
  repeat apply conj.
  - intros trace stocks prices.
    unfold Seller.main_try, io_bind, call, pure.
    destruct (Seller.get_offer_ids rs c t) as [ids|e]; [|discriminate].
    destruct (Seller.download_stock rs) as [feed|e]; [|discriminate].
    destruct (Seller.create_stocks feed ids) as [[st ids']|e]; [|discriminate].
    destruct (Seller.divide st 100) as [batches|e] eqn:Hd; [|discriminate].
    pose proof (for_each_call_all _ _ (fun b => Seller.UpdateStocks b c t)
                  (fun b => Seller.update_stocks rs b c t) batches) as Hs.
    unfold call in Hs.
    destruct (for_each batches _) as [pushes [[]|e]]; [|discriminate].
    destruct (Seller.create_prices feed ids') as [[pr ids'']|e]; [|discriminate].
    destruct (Seller.divide pr 900) as [batches'|e] eqn:Hd'; [|discriminate].
    pose proof (for_each_call_all _ _ (fun b => Seller.UpdatePrice b c t)
                  (fun b => Seller.update_price rs b c t) batches') as Hp.
    unfold call in Hp.
    destruct (for_each batches' _) as [pushes' [[]|e]]; [|discriminate].
    simpl in *. intros H. injection H as <- <- <-.
    rewrite (Hs eq_refl), (Hp eq_refl). rewrite !app_nil_r.
    unfold seller_stocks_pushed, seller_prices_pushed. cbn [flat_map app].
    rewrite !flat_map_app.
    fold (seller_stocks_pushed (map (fun b => Seller.UpdateStocks b c t) batches)).
    fold (seller_stocks_pushed (map (fun b => Seller.UpdatePrice b c t) batches')).
    fold (seller_prices_pushed (map (fun b => Seller.UpdateStocks b c t) batches)).
    fold (seller_prices_pushed (map (fun b => Seller.UpdatePrice b c t) batches')).
    destruct (seller_stocks_pushed_stocks c t batches) as [-> ->].
    destruct (seller_prices_pushed_prices c t batches') as [-> ->].
    rewrite app_nil_r. simpl.
    split; eapply divide_concat; try eassumption; lia.
  - intros trace not_empty stocks.
    unfold Seller.upload_stocks, io_bind, call, pure.
    destruct (Seller.get_offer_ids rs c t) as [ids|e]; [|discriminate].
    destruct (Seller.create_stocks rows ids) as [[st ids']|e]; [|discriminate].
    destruct (Seller.divide st 100) as [batches|e] eqn:Hd; [|discriminate].
    pose proof (for_each_call_all _ _ (fun b => Seller.UpdateStocks b c t)
                  (fun b => Seller.update_stocks rs b c t) batches) as Hs.
    unfold call in Hs.
    destruct (for_each batches _) as [pushes [[]|e]]; [|discriminate].
    simpl in *. intros H. injection H as <- _ <-.
    rewrite (Hs eq_refl). rewrite !app_nil_r.
    unfold seller_stocks_pushed, seller_prices_pushed. cbn [flat_map app].
    fold (seller_stocks_pushed (map (fun b => Seller.UpdateStocks b c t) batches)).
    fold (seller_prices_pushed (map (fun b => Seller.UpdateStocks b c t) batches)).
    destruct (seller_stocks_pushed_stocks c t batches) as [-> ->].
    split; [|reflexivity]. eapply divide_concat; try eassumption; lia.
  - intros trace prices.
    unfold Seller.upload_prices, io_bind, call, pure.
    destruct (Seller.get_offer_ids rs c t) as [ids|e]; [|discriminate].
    destruct (Seller.create_prices rows ids) as [[pr ids']|e]; [|discriminate].
    destruct (Seller.divide pr 1000) as [batches|e] eqn:Hd; [|discriminate].
    pose proof (for_each_call_all _ _ (fun b => Seller.UpdatePrice b c t)
                  (fun b => Seller.update_price rs b c t) batches) as Hp.
    unfold call in Hp.
    destruct (for_each batches _) as [pushes [[]|e]]; [|discriminate].
    simpl in *. intros H. injection H as <- <-.
    rewrite (Hp eq_refl). rewrite !app_nil_r.
    unfold seller_stocks_pushed, seller_prices_pushed. cbn [flat_map app].
    fold (seller_stocks_pushed (map (fun b => Seller.UpdatePrice b c t) batches)).
    fold (seller_prices_pushed (map (fun b => Seller.UpdatePrice b c t) batches)).
    destruct (seller_prices_pushed_prices c t batches) as [-> ->].
    split; [|reflexivity]. eapply divide_concat; try eassumption; lia.
  - intros trace stocks.
    unfold Market.campaign, not_awaited, io_bind, call, pure, io_ret.
    destruct (Market.get_offer_ids rm c t) as [ids|e]; [|discriminate].
    destruct (Market.create_stocks _ rows ids w) as [[st ids']|e]; [|discriminate].
    destruct (Seller.divide st 2000) as [batches|e] eqn:Hd; [|discriminate].
    pose proof (for_each_call_all _ _ (fun b => Market.UpdateStocks b c t)
                  (fun b => Market.update_stocks rm b c t) batches) as Hs.
    unfold call in Hs.
    destruct (for_each batches _) as [pushes [[]|e]]; [|discriminate].
    simpl in *. intros H. injection H as <- <-.
    rewrite (Hs eq_refl). rewrite !app_nil_r.
    unfold market_stocks_pushed, market_prices_pushed. cbn [flat_map app].
    fold (market_stocks_pushed (map (fun b => Market.UpdateStocks b c t) batches)).
    fold (market_prices_pushed (map (fun b => Market.UpdateStocks b c t) batches)).
    destruct (market_stocks_pushed_stocks c t batches) as [-> ->].
    split; [|reflexivity]. eapply divide_concat; try eassumption; lia.
  - intros trace not_empty stocks.
    unfold Market.upload_stocks, io_bind, call, pure.
    destruct (Market.get_offer_ids rm c t) as [ids|e]; [|discriminate].
    destruct (Market.create_stocks _ rows ids w) as [[st ids']|e]; [|discriminate].
    destruct (Seller.divide st 2000) as [batches|e] eqn:Hd; [|discriminate].
    pose proof (for_each_call_all _ _ (fun b => Market.UpdateStocks b c t)
                  (fun b => Market.update_stocks rm b c t) batches) as Hs.
    unfold call in Hs.
    destruct (for_each batches _) as [pushes [[]|e]]; [|discriminate].
    simpl in *. intros H. injection H as <- _ <-.
    rewrite (Hs eq_refl). rewrite !app_nil_r.
    unfold market_stocks_pushed, market_prices_pushed. cbn [flat_map app].
    fold (market_stocks_pushed (map (fun b => Market.UpdateStocks b c t) batches)).
    fold (market_prices_pushed (map (fun b => Market.UpdateStocks b c t) batches)).
    destruct (market_stocks_pushed_stocks c t batches) as [-> ->].
    split; [|reflexivity]. eapply divide_concat; try eassumption; lia.
  - intros trace prices.
    unfold Market.upload_prices, io_bind, call, pure.
    destruct (Market.get_offer_ids rm c t) as [ids|e]; [|discriminate].
    destruct (Market.create_prices rows ids) as [[pr ids']|e]; [|discriminate].
    destruct (Seller.divide pr 500) as [batches|e] eqn:Hd; [|discriminate].
    pose proof (for_each_call_all _ _ (fun b => Market.UpdatePrice b c t)
                  (fun b => Market.update_price rm b c t) batches) as Hp.
    unfold call in Hp.
    destruct (for_each batches _) as [pushes [[]|e]]; [|discriminate].
    simpl in *. intros H. injection H as <- <-.
    rewrite (Hp eq_refl). rewrite !app_nil_r.
    unfold market_stocks_pushed, market_prices_pushed. cbn [flat_map app].
    fold (market_stocks_pushed (map (fun b => Market.UpdatePrice b c t) batches)).
    fold (market_prices_pushed (map (fun b => Market.UpdatePrice b c t) batches)).
    destruct (market_prices_pushed_prices c t batches) as [-> ->].
    split; [|reflexivity]. eapply divide_concat; try eassumption; lia.
Qed.

Lemma seller_stocks_pushed_app (a b : list Seller.event) :
  seller_stocks_pushed (a ++ b) = seller_stocks_pushed a ++ seller_stocks_pushed b.
Proof. apply flat_map_app. Qed.

Lemma fst_try_except (E A : Type) (body : io E A) (handler : exn -> io E A) :
  fst (try_except body handler) =
  fst body ++ match snd body with
              | Ok _ => []
              | Raise e => fst (handler e)
              end.
Proof.
  destruct body as [tr [a|e]]; simpl; [now rewrite app_nil_r|].
  now destruct (handler e).
Qed.

Lemma no_stock_push (p : Z) (tr : list Seller.event) :
  Forall (seller_batch_within (-1) p) tr -> seller_stocks_pushed tr = [].
Proof.
  induction 1 as [|ev tr Hev _ IH]; [reflexivity|].
  unfold seller_stocks_pushed in *. simpl. rewrite IH.
  destruct ev; try reflexivity. simpl in Hev. unfold len in Hev. lia.
Qed.

(** Whatever a run of [main] of seller.py meets after the stock list is
    built, also a push that raises, the stock batches it has pushed are
    the first chunks of the list, whole and in their order: no update is
    pushed twice, none out of order. *)
Theorem seller_main_pushes_first_chunks (rs : Seller.Remote) (c t : string)
    (ids : list string) (feed : list watch)
    (stocks : list Seller.Stock) (ids' : list string) :
  Seller.get_offer_ids rs c t = Ok ids ->
  Seller.download_stock rs = Ok feed ->
  Seller.create_stocks feed ids = Ok (stocks, ids') ->
  exists chunks k,
    Seller.divide stocks 100 = Ok chunks /\
    seller_stocks_pushed (fst (Seller.main rs c t)) = firstn k chunks /\
    concat (firstn k chunks) ++ concat (skipn k chunks) = stocks.
Proof.
  intros Hids Hfeed Hcs.
  assert (Hd : exists chunks, Seller.divide stocks 100 = Ok chunks)
    by (eexists; apply divide_pieces; lia).
  destruct Hd as [chunks Hd].
  destruct (for_each_call_prefix _ _ (fun b => Seller.UpdateStocks b c t)
              (fun b => Seller.update_stocks rs b c t) chunks) as [k Hk].
  exists chunks, k. split; [exact Hd|]. split.
  - unfold Seller.main.
    rewrite fst_try_except, seller_stocks_pushed_app.
    replace (seller_stocks_pushed
               match snd (io_bind (Seller.main_try rs c t) (fun _ => io_ret tt)) with
               | Ok _ => []
               | Raise e => fst (Seller.report e)
               end) with (@nil (list Seller.Stock))
      by (destruct (snd _); [reflexivity | now rewrite seller_report_prints]).
    rewrite fst_io_bind, seller_stocks_pushed_app.
    replace (seller_stocks_pushed
               match snd (Seller.main_try rs c t) with
               | Ok _ => fst (@io_ret Seller.event unit tt)
               | Raise _ => []
               end) with (@nil (list Seller.Stock))
      by (now destruct (snd _)).
    rewrite !app_nil_r.
    unfold Seller.main_try.
    rewrite fst_io_bind. cbn [call fst snd]. rewrite Hids.
    rewrite fst_io_bind. cbn [call fst snd]. rewrite Hfeed.
    rewrite fst_io_bind. cbn [pure fst snd]. rewrite Hcs.
    rewrite fst_io_bind. cbn [pure fst snd]. rewrite Hd.
    rewrite fst_io_bind. rewrite Hk.
    rewrite !seller_stocks_pushed_app. cbn [app].
    rewrite (proj1 (seller_stocks_pushed_stocks c t _)).
    match goal with
    | |- _ ++ _ ++ _ ++ _ ++ _ ++ seller_stocks_pushed ?rest = _ =>
        assert (Hrest : seller_stocks_pushed rest = [])
    end.
    { destruct (snd (for_each chunks _)); [|reflexivity].
      apply (no_stock_push 900). walk_trace. }
    rewrite Hrest. simpl. now rewrite app_nil_r.
  - rewrite <- concat_app, firstn_skipn.
    eapply divide_concat; [|eassumption]. lia.
Qed.

Lemma seller_main_pushes_first_chunks_witness :
  exists chunks k,
    Seller.divide [Seller.mk_Stock "A" 100; Seller.mk_Stock "D" 0; Seller.mk_Stock "B" 0]
                  100 = Ok chunks /\
    seller_stocks_pushed
      (fst (Seller.main (seller_serving sample_listing sample_feed) "client" "token"))
      = firstn k chunks /\
    concat (firstn k chunks) ++ concat (skipn k chunks)
      = [Seller.mk_Stock "A" 100; Seller.mk_Stock "D" 0; Seller.mk_Stock "B" 0].
Proof.
  exact (seller_main_pushes_first_chunks
           (seller_serving sample_listing sample_feed) "client" "token"
           sample_listing sample_feed _ ["B"] eq_refl eq_refl eq_refl).
Defined.

(** ** The listing of seller.py *)

Section SellerListingFacts.
Variable oracle : option string -> result (option SellerListing.page).

Lemma seller_listing_loop_ok (turns : nat) :
  forall lid acc requests final,
    SellerListing.listing_loop oracle turns lid acc = Some (requests, Ok final) ->
    exists pages,
      SellerListing.answered oracle lid requests pages /\
      final = acc ++ SellerListing.products_of pages /\
      (exists front last,
         pages = front ++ [last] /\
         SellerListing.total last = Some (len final)) /\
      length requests <= turns.
Proof.
  induction turns as [|turns IH]; intros lid acc requests final H;
    [discriminate|].
  cbn [SellerListing.listing_loop] in H.
  destruct (oracle lid) as [[p|]|e] eqn:Hp; try discriminate.
  destruct (SellerListing.items p) as [more|] eqn:Hitems; [|discriminate].
  destruct (SellerListing.total_is (SellerListing.total p) (len (acc ++ more)))
    eqn:Htotal.
  - inversion H; subst; clear H. exists [p].
    split; [simpl; auto|].
    split; [unfold SellerListing.products_of; simpl; rewrite Hitems;
            now rewrite app_nil_r|].
    split; [|simpl; lia].
    exists [], p. split; [reflexivity|].
    unfold SellerListing.total_is in Htotal.
    destruct (SellerListing.total p) as [tot|]; [|discriminate].
    apply Z.eqb_eq in Htotal. now subst.
  - destruct (SellerListing.listing_loop oracle turns (SellerListing.last_id p)
                (acc ++ more)) as [[reqs out]|] eqn:Hloop; [|discriminate].
    inversion H; subst; clear H.
    destruct (IH _ _ _ _ Hloop) as (pages & Hans & Hfinal & (front & last & Hpages & Htot) & Hlen).
    exists (p :: pages).
    split; [simpl; auto|].
    split.
    { unfold SellerListing.products_of in *. simpl. rewrite Hitems.
      now rewrite Hfinal, app_assoc. }
    split; [|simpl; lia].
    exists (p :: front), last. split; [now rewrite Hpages | assumption].
Qed.

(** More turns change nothing once there is an outcome. *)
Lemma seller_listing_loop_more_turns (turns : nat) :
  forall lid acc outcome,
    SellerListing.listing_loop oracle turns lid acc = Some outcome ->
    forall more, SellerListing.listing_loop oracle (turns + more) lid acc = Some outcome.
Proof.
  induction turns as [|turns IH]; intros lid acc outcome H more; [discriminate|].
  cbn [SellerListing.listing_loop Nat.add] in *.
  destruct (oracle lid) as [[p|]|e]; try assumption.
  destruct (SellerListing.items p) as [its|]; [|assumption].
  destruct (SellerListing.total_is _ _); [assumption|].
  destruct (SellerListing.listing_loop oracle turns _ _) as [[reqs out]|] eqn:Hloop;
    [|discriminate].
  now rewrite (IH _ _ _ Hloop more).
Qed.

(** When [get_offer_ids] of seller.py returns, every request but the
    first carried the [last_id] of the page before it, the identifiers
    are those of all the pages in the order received, none dropped for
    being there twice, and their number is the [total] of the last
    page; more turns of the loop give the same outcome. *)
Theorem seller_get_offer_ids_result (turns : nat)
    (requests : list (option string)) (ids : list string) :
  SellerListing.get_offer_ids oracle turns = Some (requests, Ok ids) ->
  exists pages,
    SellerListing.answered oracle (Some EmptyString) requests pages /\
    ids = map SellerListing.offer_id (SellerListing.products_of pages) /\
    (exists front last,
       pages = front ++ [last] /\ SellerListing.total last = Some (len ids)) /\
    length requests <= turns /\
    forall more,
      SellerListing.get_offer_ids oracle (turns + more) = Some (requests, Ok ids).
Proof.
  unfold SellerListing.get_offer_ids. intros H.
  destruct (SellerListing.listing_loop oracle turns (Some EmptyString) [])
    as [[reqs [final|e]]|] eqn:Hloop; try discriminate.
  simpl in H. injection H as <- <-.
  destruct (seller_listing_loop_ok _ _ _ _ _ Hloop)
    as (pages & Hans & Hfinal & (front & last & Hpages & Htot) & Hlen).
  simpl in Hfinal. subst final.
  exists pages. split; [assumption|]. split; [reflexivity|].
  split.
  { exists front, last. split; [assumption|].
    rewrite Htot. unfold len. now rewrite length_map. }
  split; [assumption|].
  intros more. now rewrite (seller_listing_loop_more_turns _ _ _ _ Hloop more).
Qed.

Lemma seller_listing_loop_stuck (T : Z) :
  (forall lid, exists p more,
      oracle lid = Ok (Some p) /\
      SellerListing.items p = Some more /\
      forall tot, SellerListing.total p = Some tot -> (tot <= T)%Z) ->
  forall turns lid acc,
    (T < len acc)%Z ->
    SellerListing.listing_loop oracle turns lid acc = None.
Proof.
  intros Hall. induction turns as [|turns IH]; intros lid acc Hacc; [reflexivity|].
  cbn [SellerListing.listing_loop].
  destruct (Hall lid) as (p & more & -> & -> & Htot).
  assert (Hlen : (T < len (acc ++ more))%Z)
    by (unfold len in *; rewrite length_app; lia).
  replace (SellerListing.total_is (SellerListing.total p) (len (acc ++ more)))
    with false.
  - now rewrite IH.
  - unfold SellerListing.total_is.
    destruct (SellerListing.total p) as [tot|]; [|reflexivity].
    specialize (Htot tot eq_refl). symmetry. apply Z.eqb_neq. lia.
Qed.

(** The loop of [get_offer_ids] of seller.py stops on one condition
    only, the count of the products collected being the [total] of the
    answer.  When every request is answered with a [total] of at most T
    (or none) and the first page holds more than T products, the count
    is past every total from the start: the listing never returns, with
    any number of turns. *)
Theorem seller_get_offer_ids_never_returns (T : Z) :
  (forall lid, exists p more,
      oracle lid = Ok (Some p) /\
      SellerListing.items p = Some more /\
      forall tot, SellerListing.total p = Some tot -> (tot <= T)%Z) ->
  (forall p more,
      oracle (Some EmptyString) = Ok (Some p) ->
      SellerListing.items p = Some more -> (T < len more)%Z) ->
  forall turns, SellerListing.get_offer_ids oracle turns = None.
Proof.
  intros Hall Hfirst turns. unfold SellerListing.get_offer_ids.
  destruct turns as [|turns]; [reflexivity|].
  cbn [SellerListing.listing_loop].
  destruct (Hall (Some EmptyString)) as (p & more & Hp & Hitems & Htot).
  rewrite Hp, Hitems. cbn [app].
  specialize (Hfirst p more Hp Hitems).
  replace (SellerListing.total_is (SellerListing.total p) (len more)) with false.
  - now rewrite (seller_listing_loop_stuck T Hall).
  - unfold SellerListing.total_is.
    destruct (SellerListing.total p) as [tot|]; [|reflexivity].
    specialize (Htot tot eq_refl). symmetry. apply Z.eqb_neq. lia.
Qed.

End SellerListingFacts.

Lemma seller_get_offer_ids_result_witness :
  exists pages,
    SellerListing.answered ozon_two_pages (Some EmptyString)
      [Some EmptyString; Some "B"] pages /\
    ["A"; "B"; "C"] = map SellerListing.offer_id (SellerListing.products_of pages) /\
    (exists front last,
       pages = front ++ [last] /\
       SellerListing.total last = Some (len ["A"; "B"; "C"])) /\
    length [Some EmptyString; Some "B"] <= 5 /\
    forall more,
      SellerListing.get_offer_ids ozon_two_pages (5 + more)
      = Some ([Some EmptyString; Some "B"], Ok ["A"; "B"; "C"]).
Proof.
  exact (seller_get_offer_ids_result ozon_two_pages 5
           [Some EmptyString; Some "B"] ["A"; "B"; "C"] eq_refl).
Defined.

Lemma seller_get_offer_ids_never_returns_witness :
  (forall lid, exists p more,
      ozon_wrong_total lid = Ok (Some p) /\
      SellerListing.items p = Some more /\
      forall tot, SellerListing.total p = Some tot -> (tot <= 2)%Z) /\
  (forall p more,
      ozon_wrong_total (Some EmptyString) = Ok (Some p) ->
      SellerListing.items p = Some more -> (2 < len more)%Z) /\
  forall turns, SellerListing.get_offer_ids ozon_wrong_total turns = None.
Proof.
  assert (H1 : forall lid, exists p more,
             ozon_wrong_total lid = Ok (Some p) /\
             SellerListing.items p = Some more /\
             forall tot, SellerListing.total p = Some tot -> (tot <= 2)%Z).
  { intros lid. eexists. eexists. split; [reflexivity|].
    split; [reflexivity|]. intros tot H. injection H as <-. lia. }
  assert (H2 : forall p more,
             ozon_wrong_total (Some EmptyString) = Ok (Some p) ->
             SellerListing.items p = Some more -> (2 < len more)%Z).
  { intros p more Hp Hitems. injection Hp as <-. injection Hitems as <-.
    reflexivity. }
  split; [exact H1|]. split; [exact H2|].
  exact (seller_get_offer_ids_never_returns ozon_wrong_total 2 H1 H2).
Defined.

(** ** The listing of market.py *)

Section MarketListingFacts.
Variable oracle : option string -> result (option MarketListing.page).

Lemma market_listing_loop_ok (turns : nat) :
  forall tok acc requests final,
    MarketListing.listing_loop oracle turns tok acc = Some (requests, Ok final) ->
    exists pages,
      MarketListing.answered oracle tok requests pages /\
      final = acc ++ MarketListing.entries_of pages /\
      (exists front last,
         pages = front ++ [last] /\
         MarketListing.falsy (MarketListing.next_token last) = true /\
         Forall (fun p => MarketListing.falsy (MarketListing.next_token p) = false)
                front) /\
      length requests <= turns.
Proof.
  induction turns as [|turns IH]; intros tok acc requests final H;
    [discriminate|].
  cbn [MarketListing.listing_loop] in H.
  destruct (oracle tok) as [[p|]|e] eqn:Hp; try discriminate.
  destruct (MarketListing.offerMappingEntries p) as [more|] eqn:Hentries;
    [|discriminate].
  destruct (MarketListing.paging p) as [info|] eqn:Hpaging; [|discriminate].
  assert (Hnext : MarketListing.next_token p = MarketListing.nextPageToken info)
    by (unfold MarketListing.next_token; now rewrite Hpaging).
  destruct (MarketListing.falsy (MarketListing.nextPageToken info)) eqn:Hfalsy.
  - inversion H; subst; clear H. exists [p].
    split; [simpl; auto|].
    split; [unfold MarketListing.entries_of; simpl; rewrite Hentries;
            now rewrite app_nil_r|].
    split; [|simpl; lia].
    exists [], p. split; [reflexivity|]. split; [now rewrite Hnext | constructor].
  - destruct (MarketListing.listing_loop oracle turns
                (MarketListing.nextPageToken info) (acc ++ more))
      as [[reqs out]|] eqn:Hloop; [|discriminate].
    inversion H; subst; clear H.
    destruct (IH _ _ _ _ Hloop)
      as (pages & Hans & Hfinal & (front & last & Hpages & Hlast & Hfront) & Hlen).
    exists (p :: pages).
    split; [simpl; rewrite Hnext; auto|].
    split.
    { unfold MarketListing.entries_of in *. simpl. rewrite Hentries.
      now rewrite Hfinal, app_assoc. }
    split; [|simpl; lia].
    exists (p :: front), last. split; [now rewrite Hpages|].
    split; [assumption|]. constructor; [now rewrite Hnext | assumption].
Qed.

Lemma skus_loop_ok (product_list : list MarketListing.entry) :
  forall offer_ids ids,
    MarketListing.skus_loop product_list offer_ids = Ok ids ->
    exists skus,
      ids = offer_ids ++ skus /\
      product_list = map MarketListing.entry_of skus.
Proof.
  induction product_list as [|[[[sku]|]] rest IH]; intros offer_ids ids H;
    cbn [MarketListing.skus_loop MarketListing.offer MarketListing.shopSku] in H.
  - injection H as <-. exists []. now rewrite app_nil_r.
  - destruct (IH _ _ H) as (skus & -> & ->).
    exists (sku :: skus). now rewrite <- app_assoc.
  - discriminate.
Qed.


Lemma market_listing_loop_more_turns (turns : nat) :
  forall tok acc outcome,
    MarketListing.listing_loop oracle turns tok acc = Some outcome ->
    forall more, MarketListing.listing_loop oracle (turns + more) tok acc = Some outcome.
Proof.
  induction turns as [|turns IH]; intros tok acc outcome H more; [discriminate|].
  cbn [MarketListing.listing_loop Nat.add] in *.
  destruct (oracle tok) as [[p|]|e]; try assumption.
  destruct (MarketListing.offerMappingEntries p) as [its|]; [|assumption].
  destruct (MarketListing.paging p) as [info|]; [|assumption].
  destruct (MarketListing.falsy _); [assumption|].
  destruct (MarketListing.listing_loop oracle turns _ _) as [[reqs out]|] eqn:Hloop;
    [|discriminate].
  now rewrite (IH _ _ _ Hloop more).
Qed.

(** When [get_offer_ids] of market.py returns, every request but the
    first carried the token of the page before it, the entries of all
    the pages, in the order received, are the entries that carry the
    identifiers returned (so each of them had its offer), the last page
    had no token (or the empty one) and every page before it had one;
    more turns of the loop give the same outcome. *)
Theorem market_get_offer_ids_result (turns : nat)
    (requests : list (option string)) (ids : list string) :
  MarketListing.get_offer_ids oracle turns = Some (requests, Ok ids) ->
  exists pages,
    MarketListing.answered oracle (Some EmptyString) requests pages /\
    MarketListing.entries_of pages = map MarketListing.entry_of ids /\
    (exists front last,
       pages = front ++ [last] /\
       MarketListing.falsy (MarketListing.next_token last) = true /\
       Forall (fun p => MarketListing.falsy (MarketListing.next_token p) = false)
              front) /\
    length requests <= turns /\
    forall more,
      MarketListing.get_offer_ids oracle (turns + more) = Some (requests, Ok ids).
Proof.
  unfold MarketListing.get_offer_ids. intros H.
  destruct (MarketListing.listing_loop oracle turns (Some EmptyString) [])
    as [[reqs [final|e]]|] eqn:Hloop; try discriminate.
  cbn [bind] in H.
  destruct (MarketListing.skus_loop final []) as [ids'|e] eqn:Hskus;
    inversion H; subst; clear H.
  destruct (market_listing_loop_ok _ _ _ _ _ Hloop)
    as (pages & Hans & Hfinal & Hlast & Hlen).
  simpl in Hfinal. subst final.
  destruct (skus_loop_ok _ _ _ Hskus) as (skus & Hids & Hentries).
  simpl in Hids. subst skus.
  exists pages. repeat (split; [assumption|]).
  intros more. rewrite (market_listing_loop_more_turns _ _ _ _ Hloop more).
  cbn [bind]. now rewrite Hskus.
Qed.

Lemma market_listing_loop_stuck :
  (forall tok, exists p more info next,
      oracle tok = Ok (Some p) /\
      MarketListing.offerMappingEntries p = Some more /\
      MarketListing.paging p = Some info /\
      MarketListing.nextPageToken info = Some next /\
      next <> EmptyString) ->
  forall turns tok acc, MarketListing.listing_loop oracle turns tok acc = None.
Proof.
  intros Hall. induction turns as [|turns IH]; intros tok acc; [reflexivity|].
  cbn [MarketListing.listing_loop].
  destruct (Hall tok) as (p & more & info & next & -> & -> & -> & Hnext & Hne).
  rewrite Hnext. cbn [MarketListing.falsy].
  destruct (String.eqb_spec next EmptyString) as [E|_]; [contradiction|].
  now rewrite IH.
Qed.

(** The loop of [get_offer_ids] of market.py stops on one condition
    only, an answer without a token.  When every request is answered
    with a page that carries a token, the listing never returns, with
    any number of turns. *)
Theorem market_get_offer_ids_never_returns :
  (forall tok, exists p more info next,
      oracle tok = Ok (Some p) /\
      MarketListing.offerMappingEntries p = Some more /\
      MarketListing.paging p = Some info /\
      MarketListing.nextPageToken info = Some next /\
      next <> EmptyString) ->
  forall turns, MarketListing.get_offer_ids oracle turns = None.
Proof.
  intros Hall turns. unfold MarketListing.get_offer_ids.
  now rewrite (market_listing_loop_stuck Hall).
Qed.

End MarketListingFacts.

Lemma market_get_offer_ids_result_witness :
  exists pages,
    MarketListing.answered yandex_two_pages (Some EmptyString)
      [Some EmptyString; Some "next"] pages /\
    MarketListing.entries_of pages = map MarketListing.entry_of ["A"; "B"; "C"] /\
    (exists front last,
       pages = front ++ [last] /\
       MarketListing.falsy (MarketListing.next_token last) = true /\
       Forall (fun p => MarketListing.falsy (MarketListing.next_token p) = false)
              front) /\
    length [Some EmptyString; Some "next"] <= 5 /\
    forall more,
      MarketListing.get_offer_ids yandex_two_pages (5 + more)
      = Some ([Some EmptyString; Some "next"], Ok ["A"; "B"; "C"]).
Proof.
  exact (market_get_offer_ids_result yandex_two_pages 5
           [Some EmptyString; Some "next"] ["A"; "B"; "C"] eq_refl).
Defined.

Lemma market_get_offer_ids_never_returns_witness :
  (forall tok, exists p more info next,
      yandex_same_token tok = Ok (Some p) /\
      MarketListing.offerMappingEntries p = Some more /\
      MarketListing.paging p = Some info /\
      MarketListing.nextPageToken info = Some next /\
      next <> EmptyString) /\
  forall turns, MarketListing.get_offer_ids yandex_same_token turns = None.
Proof.
  assert (H : forall tok, exists p more info next,
             yandex_same_token tok = Ok (Some p) /\
             MarketListing.offerMappingEntries p = Some more /\
             MarketListing.paging p = Some info /\
             MarketListing.nextPageToken info = Some next /\
             next <> EmptyString).
  { intros tok. do 4 eexists. repeat (split; [reflexivity|]). discriminate. }
  split; [exact H|].
  exact (market_get_offer_ids_never_returns yandex_same_token H).
Defined.

(** ** A listing that fails *)





(** ** The two modules side by side, and the campaigns of market.py *)

(** From the same feed and the same listing, [create_stocks] of
    market.py sends the identifiers and quantities that [create_stocks]
    of seller.py sends, in the same order, whatever the clock and the
    warehouse; it raises when the other does, and leaves the caller's
    list in the same state. *)
Theorem both_modules_send_the_same_quantities (utcnow : datetime)
    (warehouse_id : string) (rows : list watch) (ids : list string) :
  returned market_pair (Market.create_stocks utcnow rows ids warehouse_id)
    = returned seller_pair (Seller.create_stocks rows ids) /\
  match Market.create_stocks utcnow rows ids warehouse_id,
        Seller.create_stocks rows ids with
  | Ok (_, left_market), Ok (_, left_seller) => left_market = left_seller
  | Raise e_market, Raise e_seller => e_market = e_seller
  | _, _ => False
  end.
Proof.
  split.
  - rewrite market_create_stocks_as_seller.
    destruct (Seller.create_stocks rows ids) as [[stocks ids']|e]; simpl;
      [|reflexivity].
    rewrite map_map. f_equal.
  - rewrite market_create_stocks_as_seller.
    now destruct (Seller.create_stocks rows ids) as [[stocks ids']|e].
Qed.

(** In [main] of market.py, once the feed is downloaded, an exception
    anywhere in the campaign FBS ends the run: the line for it is
    printed and nothing is asked or pushed for the campaign DBS. *)
Theorem market_main_stops_at_the_failing_campaign (r : Market.Remote)
    (t fbs dbs w_fbs w_dbs : string) (feed : list watch) (e : exn) :
  Market.download_stock r = Ok feed ->
  snd (Market.campaign r 0 feed fbs t w_fbs) = Raise e ->
  Market.main r t fbs dbs w_fbs w_dbs
  = (Market.DownloadStock :: fst (Market.campaign r 0 feed fbs t w_fbs)
       ++ [Market.Print (line_for e)],
     Ok tt).
Proof.
  intros Hfeed Hfbs. unfold Market.main, Market.main_try, call.
  rewrite Hfeed. unfold io_bind at 1.
  destruct (Market.campaign r 0 feed fbs t w_fbs) as [tr [stocks|e']];
    simpl in Hfbs; [discriminate|]. injection Hfbs as ->.
  simpl. now rewrite market_report_prints.
Qed.

Lemma market_main_stops_at_the_failing_campaign_witness :
  Market.download_stock (market_fbs_times_out ["A"] sample_feed (fun _ => sample_clock))
    = Ok sample_feed /\
  snd (Market.campaign (market_fbs_times_out ["A"] sample_feed (fun _ => sample_clock))
         0 sample_feed "FBS" "token" "w1") = Raise ReadTimeout /\
  Market.main (market_fbs_times_out ["A"] sample_feed (fun _ => sample_clock))
              "token" "FBS" "DBS" "w1" "w2"
  = (Market.DownloadStock
       :: fst (Market.campaign
                 (market_fbs_times_out ["A"] sample_feed (fun _ => sample_clock))
                 0 sample_feed "FBS" "token" "w1")
       ++ [Market.Print (line_for ReadTimeout)],
     Ok tt).
Proof.
  split; [reflexivity|]. split; [reflexivity|].
  exact (market_main_stops_at_the_failing_campaign
           (market_fbs_times_out ["A"] sample_feed (fun _ => sample_clock))
           "token" "FBS" "DBS" "w1" "w2" sample_feed ReadTimeout eq_refl eq_refl).
Defined.
